(** * AI Test Maker backend: the question generator of [main.py]

    A shallow embedding of the generator ([generate_mcq], [generate_short],
    [generate_questions]), of the test assembler ([generate_test]) and of the
    request model ([GenerateRequest]) of [src/main.py], with the properties
    the specification states about them.

    Conventions.
    - A Python [str] is the [string] of its UTF-8 encoding; an f-string is
      the concatenation of its pieces, an interpolated [int] being printed
      in decimal ([str_of_int]); a slice counts characters, not bytes
      ([take_chars]).  [str.title] is Python's own and is a variable
      [str_title] of what calls it; [ascii_title] is what it does on ASCII
      text.
    - A Python [int] is a [Z].
    - [random] is a process-wide source.  It is threaded explicitly: a value
      of [Rng] is the tape of raw draws still to come, and a computation that
      may draw, or raise, is a [Py A].  Quantifying over every tape covers
      every outcome of the generator.
    - [Optional[T]] is [option T]; a field left to its default [None] is
      written out.
    - A request reaches the handler through the validation its model
      declares ([GenerateRequest_validate], [post_tests_generate]).
    - A document is a [gmap] from its keys to its values (the order of the
      keys is not kept).  What the routes take from outside this file, the
      [database] module, [bson], [str] and [isoformat], are the variables
      of the section [persistence]; a call into the [database] module gives
      its result or the exception it raises. *)

From Stdlib Require Import ZArith String Ascii DecimalString DecimalPos.
From stdpp Require Import base option list strings gmap.

Local Open Scope Z_scope.

(** ** Strings *)

(** [str(n)] for an [int] *)
Definition str_of_int (n : Z) : string := NilZero.string_of_int (Z.to_int n).

(** [s.startswith(p)] *)
Definition startswith (s p : string) : bool := String.prefix p s.

(** [t in s] on strings, as a proposition *)
Definition contains (s t : string) : Prop := ∃ pre post, s = pre +:+ t +:+ post.

(** [x in l] for a list of strings, compared with [==] *)
Definition str_in (x : string) (l : list string) : bool :=
  existsb (String.eqb x) l.

(** a byte that continues a character in UTF-8: [10xxxxxx] *)
Definition is_continuation (b : ascii) : bool :=
  let n := nat_of_ascii b in ((128 <=? n) && (n <? 192))%nat.

(** [len(s)]: the characters of [s], one per byte that starts one *)
Fixpoint char_count (s : string) : nat :=
  match s with
  | EmptyString => 0%nat
  | String b s' =>
      if is_continuation b then char_count s' else S (char_count s')
  end.

(** [s[:n]]: the first [n] characters of [s], each with all its bytes *)
Fixpoint take_chars (n : nat) (s : string) : string :=
  match s with
  | EmptyString => EmptyString
  | String b s' =>
      if is_continuation b then String b (take_chars n s')
      else match n with
           | O => EmptyString
           | S n' => String b (take_chars n' s')
           end
  end.

(** ** Exceptions, the random source and the [Py] monad *)

Inductive PyExc : Type :=
| IndexError
| KeyError
| ValueError.

Definition Rng : Type := list nat.

(** a computation: from the source's state to a value or a raised exception,
    and the source's state afterwards *)
Definition Py (A : Type) : Type := Rng → (PyExc + A) * Rng.

Definition ret {A} (a : A) : Py A := λ r, (inr a, r).

Definition raise {A} (e : PyExc) : Py A := λ r, (inl e, r).

Definition bind {A B} (m : Py A) (k : A → Py B) : Py B :=
  λ r, match m r with
       | (inl e, r') => (inl e, r')
       | (inr a, r') => k a r'
       end.

Notation "'let!' x ':=' m 'in' k" := (bind m (λ x, k))
  (at level 10, x name, m at level 100, k at level 200).

(** a [for] loop over [xs] whose body updates the loop state [s] *)
Fixpoint for_each {A S} (xs : list A) (body : A → S → Py S) (s : S) : Py S :=
  match xs with
  | [] => ret s
  | a :: xs' => let! s' := body a s in for_each xs' body s'
  end.

(** [range(n)] *)
Definition range (n : Z) : list Z := seqZ 0 n.

(** [random._randbelow(n)], defined for [0 < n]: the next raw draw reduced
    into [[0, n)].  An exhausted tape keeps answering [0]. *)
Definition randbelow (n : nat) : Py nat :=
  λ r, match r with
       | [] => (inr 0%nat, [])
       | d :: r' => (inr (d mod n)%nat, r')
       end.

(** [random.choice(seq)]: [seq[randbelow(len(seq))]], [IndexError] on an
    empty sequence. *)
Definition choice {A} (seq : list A) : Py A :=
  match seq with
  | [] => raise IndexError
  | _ :: _ =>
      let! i := randbelow (length seq) in
      match seq !! i with
      | Some x => ret x
      | None => raise IndexError
      end
  end.

(** [x[i], x[j] = x[j], x[i]]: both reads, then the store at [i], then the
    store at [j]; a read out of range raises. *)
Definition swap {A} (x : list A) (i j : nat) : Py (list A) :=
  match x !! j, x !! i with
  | Some xj, Some xi => ret (<[j:=xi]> (<[i:=xj]> x))
  | _, _ => raise IndexError
  end.

(** [random.shuffle(x)]:
    [for i in reversed(range(1, len(x))): j = randbelow(i + 1); swap] *)
Definition shuffle {A} (x : list A) : Py (list A) :=
  for_each (rev (seq 1 (length x - 1)))
           (λ i x, let! j := randbelow (i + 1) in swap x i j) x.

(** [x.index(v)]: the first position holding [v], [ValueError] if none *)
Fixpoint index_from (x : list string) (v : string) (k : nat) : option nat :=
  match x with
  | [] => None
  | a :: x' => if String.eqb a v then Some k else index_from x' v (S k)
  end.

Definition index (x : list string) (v : string) : Py Z :=
  match index_from x v 0 with
  | Some k => ret (Z.of_nat k)
  | None => raise ValueError
  end.

(** ** Models *)

Module Question.
Record t : Type := mk {
  text : string;
  type : string;
  options : option (list string);
  correct_index : option Z;
  answer_text : option string;
  points : Z;
  bloom_level : option string;
}.
End Question.

Module TestModel.
Record t : Type := mk {
  title : string;
  subject : option string;
  grade_level : option string;
  description : option string;
  questions : list Question.t;
  duration_minutes : option Z;
  tags : list string;
}.
End TestModel.

Module GenerateRequest.
Record t : Type := mk {
  topic : string;
  grade_level : option string;
  num_questions : Z;
  question_type : string;
}.
End GenerateRequest.

(** ** The generator *)

Definition BLOOM_LEVELS : list string :=
  [ "Remember"; "Understand"; "Apply"; "Analyze"; "Evaluate"; "Create" ].

(** the local dict [verbs] of [generate_mcq] *)
Definition verbs : gmap string (list string) :=
  list_to_map
    [ ("Remember", ["define"; "list"; "identify"; "recall"]);
      ("Understand", ["explain"; "describe"; "summarize"; "classify"]);
      ("Apply", ["use"; "demonstrate"; "solve"; "compute"]);
      ("Analyze", ["compare"; "distinguish"; "analyze"; "differentiate"]);
      ("Evaluate", ["assess"; "justify"; "critique"; "evaluate"]);
      ("Create", ["design"; "compose"; "develop"; "formulate"]) ].

(** [d[k]]: [KeyError] on a missing key *)
Definition getitem (d : gmap string (list string)) (k : string)
  : Py (list string) :=
  match d !! k with
  | Some v => ret v
  | None => raise KeyError
  end.

Definition generate_mcq (topic : string) (grade : option string) (idx : Z)
  : Py Question.t :=
  let! bloom := choice BLOOM_LEVELS in
  let! vs := getitem verbs bloom in
  let! verb := choice vs in
  let stem :=
    if str_in bloom ["Apply"; "Analyze"; "Evaluate"; "Create"]
    then "Q" +:+ str_of_int (idx + 1) +:+ ". In the context of " +:+ topic
             +:+ ", " +:+ verb +:+ " the correct option."
    else "Q" +:+ str_of_int (idx + 1)
             +:+ ". Which of the following best relates to " +:+ topic +:+ "?" in
  (* Create 4 options with one correct *)
  let '(correct, distractors) :=
    if str_in bloom ["Remember"; "Understand"]
    then ("A concise fact about " +:+ topic,
          [ "An unrelated idea about " +:+ topic;
            "A partially correct idea about " +:+ topic;
            "A common misconception about " +:+ topic ])
    else ("An example that shows how to " +:+ verb +:+ " using " +:+ topic,
          [ "An example unrelated to " +:+ topic;
            "Incorrect application of " +:+ topic;
            "Vague statement without using " +:+ topic ]) in
  let options := distractors ++ [correct] in
  let! options := shuffle options in
  let! correct_index := index options correct in
  ret {| Question.text := stem;
         Question.type := "mcq";
         Question.options := Some options;
         Question.correct_index := Some correct_index;
         Question.answer_text := None;
         Question.points := 1;
         Question.bloom_level := Some bloom |}.

Definition generate_short (topic : string) (grade : option string) (idx : Z)
  : Py Question.t :=
  let! bloom := choice BLOOM_LEVELS in
  let stem :=
    "Q" +:+ str_of_int (idx + 1) +:+ ". Briefly explain the following about "
        +:+ topic +:+ ":" in
  ret {| Question.text := stem;
         Question.type := "short";
         Question.options := None;
         Question.correct_index := None;
         Question.answer_text :=
           Some ("A 2-3 sentence explanation referencing " +:+ topic +:+ ".");
         Question.points := 2;
         Question.bloom_level := Some bloom |}.

(** one iteration of the loop of [generate_questions] *)
Definition generate_questions_body (req : GenerateRequest.t)
  (i : Z) (qs : list Question.t) : Py (list Question.t) :=
  let qtype := GenerateRequest.question_type req in
  let! qtype :=
    (if String.eqb qtype "mixed" then choice ["mcq"; "short"] else ret qtype) in
  if String.eqb qtype "short"
  then let! q := generate_short (GenerateRequest.topic req)
                                (GenerateRequest.grade_level req) i in
       ret (qs ++ [q])
  else let! q := generate_mcq (GenerateRequest.topic req)
                              (GenerateRequest.grade_level req) i in
       ret (qs ++ [q]).

Definition generate_questions (req : GenerateRequest.t) : Py (list Question.t) :=
  for_each (range (GenerateRequest.num_questions req))
           (generate_questions_body req) [].

(** ** The test assembler *)

(** Title-casing of ASCII text, which is what [s.title()] does when every
    character of [s] is an ASCII character: a letter that follows a letter
    is lowered, any other letter is raised, the rest is kept.  (On other
    text [s.title()] follows the Unicode tables, which are no part of this
    file.) *)

Definition is_upper (c : ascii) : bool :=
  let n := nat_of_ascii c in ((65 <=? n) && (n <=? 90))%nat.

Definition is_lower (c : ascii) : bool :=
  let n := nat_of_ascii c in ((97 <=? n) && (n <=? 122))%nat.

Definition is_cased (c : ascii) : bool := is_upper c || is_lower c.

Definition to_upper (c : ascii) : ascii :=
  if is_lower c then ascii_of_nat (nat_of_ascii c - 32) else c.

Definition to_lower (c : ascii) : ascii :=
  if is_upper c then ascii_of_nat (nat_of_ascii c + 32) else c.

Fixpoint ascii_title_from (previous_is_cased : bool) (s : string) : string :=
  match s with
  | EmptyString => EmptyString
  | String c s' =>
      String (if previous_is_cased then to_lower c else to_upper c)
             (ascii_title_from (is_cased c) s')
  end.

Definition ascii_title (s : string) : string := ascii_title_from false s.

(** [str_title] is [str.title] *)
Definition generate_test (str_title : string → string)
    (req : GenerateRequest.t) : Py TestModel.t :=
  let title :=
    str_title (GenerateRequest.topic req) +:+ " - "
      +:+ str_of_int (GenerateRequest.num_questions req) +:+ " Question Test" in
  let! questions := generate_questions req in
  ret {| TestModel.title := title;
         TestModel.subject := Some (GenerateRequest.topic req);
         TestModel.grade_level := GenerateRequest.grade_level req;
         TestModel.description :=
           Some ("Auto-generated " +:+ GenerateRequest.question_type req
                   +:+ " test about " +:+ GenerateRequest.topic req);
         TestModel.questions := questions;
         TestModel.duration_minutes :=
           Some (Z.max 10 (GenerateRequest.num_questions req * 2));
         TestModel.tags := ["auto"; "generated"; GenerateRequest.topic req] |}.

(** ** The request boundary *)

(** A request body whose fields, when present, have the declared types. *)
Module Body.
Record t : Type := mk {
  topic : option string;
  grade_level : option string;
  num_questions : option Z;
  question_type : option string;
}.
End Body.

Inductive ValidationError : Type :=
| missing (field : string)
| greater_than_equal (field : string) (ge : Z)
| less_than_equal (field : string) (le : Z).

(** Validation by the field declarations of [GenerateRequest]:
    [topic] is required; [grade_level] defaults to [None]; [num_questions]
    defaults to [5] and carries [ge=1, le=50]; [question_type] defaults to
    ["mcq"] and carries a description only. *)
Definition GenerateRequest_validate (body : Body.t)
  : ValidationError + GenerateRequest.t :=
  match Body.topic body with
  | None => inl (missing "topic")
  | Some topic =>
      let num_questions := default 5 (Body.num_questions body) in
      if num_questions <? 1 then inl (greater_than_equal "num_questions" 1)
      else if 50 <? num_questions then inl (less_than_equal "num_questions" 50)
      else inr {| GenerateRequest.topic := topic;
                  GenerateRequest.grade_level := Body.grade_level body;
                  GenerateRequest.num_questions := num_questions;
                  GenerateRequest.question_type :=
                    default "mcq" (Body.question_type body) |}
  end.

(** what the route [POST /api/tests/generate] answers *)
Inductive Response : Type :=
| unprocessable (e : ValidationError)
| server_error (e : PyExc)
| ok (payload : TestModel.t).

(** The route: the framework validates the body into a [GenerateRequest]
    and calls the handler only with a validated request. *)
Definition post_tests_generate (str_title : string → string)
    (body : Body.t) : Rng → Response * Rng :=
  λ r, match GenerateRequest_validate body with
       | inl e => (unprocessable e, r)
       | inr req =>
           match generate_test str_title req r with
           | (inl e, r') => (server_error e, r')
           | (inr payload, r') => (ok payload, r')
           end
       end.

(** the precondition the specification puts on a request *)
Definition valid_request (req : GenerateRequest.t) : Prop :=
  GenerateRequest.topic req ≠ "" ∧
  1 ≤ GenerateRequest.num_questions req ≤ 50 ∧
  GenerateRequest.question_type req ∈ ["mcq"; "short"; "mixed"].

(** ** Vocabulary of the statements *)

(** the pieces [generate_mcq] builds from the level and the verb it drew *)
Definition mcq_stem (topic bloom verb : string) (idx : Z) : string :=
  if str_in bloom ["Apply"; "Analyze"; "Evaluate"; "Create"]
  then "Q" +:+ str_of_int (idx + 1) +:+ ". In the context of " +:+ topic
           +:+ ", " +:+ verb +:+ " the correct option."
  else "Q" +:+ str_of_int (idx + 1)
           +:+ ". Which of the following best relates to " +:+ topic +:+ "?".

Definition mcq_correct (topic bloom verb : string) : string :=
  if str_in bloom ["Remember"; "Understand"]
  then "A concise fact about " +:+ topic
  else "An example that shows how to " +:+ verb +:+ " using " +:+ topic.

Definition mcq_distractors (topic bloom : string) : list string :=
  if str_in bloom ["Remember"; "Understand"]
  then [ "An unrelated idea about " +:+ topic;
         "A partially correct idea about " +:+ topic;
         "A common misconception about " +:+ topic ]
  else [ "An example unrelated to " +:+ topic;
         "Incorrect application of " +:+ topic;
         "Vague statement without using " +:+ topic ].

(** One iteration of the batch loop for ordinal [i], started on tape [r]:
    the kind it resolves, then the synthesizer it runs, append [q] and leave
    tape [r']. *)
Definition iteration (req : GenerateRequest.t) (i : Z) (r : Rng)
    (q : Question.t) (r' : Rng) : Prop :=
  ∃ kind r0,
    (if String.eqb (GenerateRequest.question_type req) "mixed"
     then choice ["mcq"; "short"]
     else ret (GenerateRequest.question_type req)) r = (inr kind, r0) ∧
    (if String.eqb kind "short"
     then generate_short (GenerateRequest.topic req)
                         (GenerateRequest.grade_level req) i
     else generate_mcq (GenerateRequest.topic req)
                       (GenerateRequest.grade_level req) i) r0 = (inr q, r').

(** the invariant of a question, discriminated by its type *)
Definition question_invariant (q : Question.t) : Prop :=
  (Question.type q = "mcq" ∨ Question.type q = "short") ∧
  (Question.type q = "mcq" →
     is_Some (Question.options q) ∧ is_Some (Question.correct_index q) ∧
     Question.answer_text q = None) ∧
  (Question.type q = "short" →
     is_Some (Question.answer_text q) ∧ Question.options q = None ∧
     Question.correct_index q = None) ∧
  (∃ bloom, Question.bloom_level q = Some bloom ∧ bloom ∈ BLOOM_LEVELS).

(** a tape that makes a [mixed] batch resolve to the given kinds: per item
    the draw of the kind ([0] picks ["mcq"], [1] picks ["short"]) followed
    by the draws of its synthesizer *)
Definition tape_for (kinds : list string) : Rng :=
  mjoin ((λ kind : string,
            if String.eqb kind "short" then [1; 0]%nat
            else [0; 0; 0; 0; 0; 0]%nat) <$> kinds).

(** the test [generate_test] wraps around the batch [qs] *)
Definition assemble (str_title : string → string)
    (req : GenerateRequest.t) (qs : list Question.t) : TestModel.t :=
  {| TestModel.title :=
       str_title (GenerateRequest.topic req) +:+ " - "
         +:+ str_of_int (GenerateRequest.num_questions req)
         +:+ " Question Test";
     TestModel.subject := Some (GenerateRequest.topic req);
     TestModel.grade_level := GenerateRequest.grade_level req;
     TestModel.description :=
       Some ("Auto-generated " +:+ GenerateRequest.question_type req
               +:+ " test about " +:+ GenerateRequest.topic req);
     TestModel.questions := qs;
     TestModel.duration_minutes :=
       Some (Z.max 10 (GenerateRequest.num_questions req * 2));
     TestModel.tags := ["auto"; "generated"; GenerateRequest.topic req] |}.

(** ** Sample requests *)

Definition photosynthesis_req : GenerateRequest.t :=
  {| GenerateRequest.topic := "Photosynthesis";
     GenerateRequest.grade_level := None;
     GenerateRequest.num_questions := 2;
     GenerateRequest.question_type := "short" |}.

Definition essay_req : GenerateRequest.t :=
  {| GenerateRequest.topic := "cells";
     GenerateRequest.grade_level := None;
     GenerateRequest.num_questions := 2;
     GenerateRequest.question_type := "essay" |}.

Definition mixed_req : GenerateRequest.t :=
  {| GenerateRequest.topic := "cells";
     GenerateRequest.grade_level := None;
     GenerateRequest.num_questions := 3;
     GenerateRequest.question_type := "mixed" |}.

(** ** Documents and the persistence routes *)

(** [HTTPException(status_code, detail)] *)
Record HTTPException : Type := mkHTTPException {
  status_code : Z;
  detail : string;
}.

(** What a route raises: an [HTTPException] of its own, or the exception a
    call into the [database] module raised (its text), which the route lets
    through. *)
Inductive Raised : Type :=
| http_exception (e : HTTPException)
| exception (message : string).

(** What [test_database] reads of the attribute [name] of the handle:
    there is none, reading it raises, or it has a value. *)
Inductive name_attr : Type :=
| no_name
| name_raises (message : string)
| name_is (value : string).

(** the dict [test_database] answers with *)
Module Status.
Record t : Type := mk {
  backend : string;
  database : string;
  database_url : option string;
  database_name : option string;
  connection_status : string;
  collections : list string;
}.

Definition set_database (v : string) (r : t) : t :=
  mk (backend r) v (database_url r) (database_name r) (connection_status r)
     (collections r).

Definition set_database_url (v : option string) (r : t) : t :=
  mk (backend r) (database r) v (database_name r) (connection_status r)
     (collections r).

Definition set_database_name (v : option string) (r : t) : t :=
  mk (backend r) (database r) (database_url r) v (connection_status r)
     (collections r).

Definition set_connection_status (v : string) (r : t) : t :=
  mk (backend r) (database r) (database_url r) (database_name r) v
     (collections r).

Definition set_collections (v : list string) (r : t) : t :=
  mk (backend r) (database r) (database_url r) (database_name r)
     (connection_status r) v.
End Status.

(** [bool(os.getenv(k))]: the variable is set and not empty *)
Definition getenv_truthy (env : gmap string string) (k : string) : bool :=
  match env !! k with
  | Some v => negb (String.eqb v "")
  | None => false
  end.

Section persistence.

(** The Python values a document holds, told apart as the code tells them
    apart: [None], a [str], a value with an [isoformat] method, any other
    value (an [ObjectId], a number, a list). *)
Context {datetime object : Type}.

Inductive Value : Type :=
| VNone
| VStr (s : string)
| VDatetime (d : datetime)
| VObject (o : object).

(** [d.isoformat()], [str(v)] *)
Context (isoformat : datetime → string) (py_str : Value → string).

(** [doc.get("_id") is not None], with the value *)
Definition get_not_None (doc : gmap string Value) (k : string)
  : option Value :=
  match doc !! k with
  | Some VNone | None => None
  | Some v => Some v
  end.

(** what the loop over the timestamp keys makes of a value *)
Definition isoformat_value (v : Value) : Value :=
  match v with
  | VDatetime d => VStr (isoformat d)
  | _ => v
  end.

(** one turn of the loop over the two timestamp keys *)
Definition serialize_doc_key (doc : gmap string Value) (k : string)
  : gmap string Value :=
  match doc !! k with
  | Some (VDatetime d) => <[k := VStr (isoformat d)]> doc
  | _ => doc
  end.

Definition serialize_doc (doc : gmap string Value) : gmap string Value :=
  match map_to_list doc with
  | [] => doc
  | _ :: _ =>
      (* doc = dict(doc): the caller's dict is left as it is *)
      let doc :=
        match get_not_None doc "_id" with
        | Some v => <["id" := VStr (py_str v)]> (delete "_id" doc)
        | None => doc
        end in
      (* Convert datetimes to isoformat if present *)
      foldl serialize_doc_key doc ["created_at"; "updated_at"]
  end.

(** The collaborators of the routes: the handle [db] of the [database]
    module ([None] when no database is configured) with what the routes ask
    of it, [create_document] and [get_documents] of that module, and
    [ObjectId] of [bson].  A call into the database gives the text of the
    exception it raises ([inl]) or its result ([inr]). *)
Context {Db : Type}.
Context (db_name : Db → name_attr)
        (list_collection_names : Db → string + list string)
        (find_one : Db → string → gmap string Value
                    → string + option (gmap string Value))
        (create_document : string → TestModel.t → string + string)
        (get_documents : string → Z → string + list (gmap string Value))
        (ObjectId_is_valid : string → bool)
        (ObjectId : string → object).

Definition test_database (db : option Db) (env : gmap string string)
  : Status.t :=
  let response :=
    {| Status.backend := "✅ Running";
       Status.database := "❌ Not Available";
       Status.database_url := None;
       Status.database_name := None;
       Status.connection_status := "Not Connected";
       Status.collections := [] |} in
  let response :=
    match db with
    | Some db =>
        let response := Status.set_database "✅ Available" response in
        let response :=
          Status.set_database_url (Some "✅ Configured") response in
        match db_name db with
        | name_raises e =>
            (* the outer handler *)
            Status.set_database ("❌ Error: " +:+ take_chars 50 e)
                                response
        | attr =>
            let response :=
              Status.set_database_name
                (Some (match attr with
                       | name_is v => v
                       | _ => "✅ Connected"
                       end)) response in
            let response :=
              Status.set_connection_status "Connected" response in
            match list_collection_names db with
            | inr collections =>
                let response :=
                  Status.set_collections (take 10 collections) response in
                Status.set_database "✅ Connected & Working" response
            | inl e =>
                Status.set_database
                  ("⚠️  Connected but Error: " +:+ take_chars 50 e)
                  response
            end
        end
    | None =>
        Status.set_database "⚠️  Available but not initialized" response
    end in
  (* Check env *)
  let response :=
    Status.set_database_url
      (Some (if getenv_truthy env "DATABASE_URL"
             then "✅ Set" else "❌ Not Set")) response in
  Status.set_database_name
    (Some (if getenv_truthy env "DATABASE_NAME"
           then "✅ Set" else "❌ Not Set")) response.

Definition database_not_configured : HTTPException :=
  {| status_code := 500; detail := "Database not configured" |}.

Definition save_test (db : option Db) (test : TestModel.t)
  : Raised + gmap string string :=
  match db with
  | None => inl (http_exception database_not_configured)
  | Some _ =>
      match create_document "test" test with
      | inl message => inl (exception message)
      | inr inserted_id => inr {[ "id" := inserted_id ]}
      end
  end.

(** [limit] is [None] when the query leaves it out: it is then 25 *)
Definition list_tests (db : option Db) (limit : option Z)
  : Raised + list (gmap string Value) :=
  match db with
  | None => inl (http_exception database_not_configured)
  | Some _ =>
      match get_documents "test" (default 25 limit) with
      | inl message => inl (exception message)
      | inr docs => inr (serialize_doc <$> docs)
      end
  end.

Definition get_test (db : option Db) (test_id : string)
  : Raised + gmap string Value :=
  match db with
  | None => inl (http_exception database_not_configured)
  | Some db =>
      if negb (ObjectId_is_valid test_id)
      then inl (http_exception
                  {| status_code := 400; detail := "Invalid id" |})
      else
        match find_one db "test" {[ "_id" := VObject (ObjectId test_id) ]} with
        | inl message => inl (exception message)
        | inr None =>
            inl (http_exception
                   {| status_code := 404; detail := "Not found" |})
        | inr (Some doc) =>
            match map_to_list doc with
            | [] =>
                inl (http_exception
                       {| status_code := 404; detail := "Not found" |})
            | _ :: _ => inr (serialize_doc doc)
            end
        end
  end.

End persistence.

Arguments VNone {datetime object}.
Arguments VStr {datetime object} s.

(** ** The schema of the [test] collection ([schemas.py]) *)

(** [Question]: [points] carries [ge=0] *)
Definition schemas_Question_validate (q : Question.t)
  : ValidationError + Question.t :=
  if Question.points q <? 0 then inl (greater_than_equal "points" 0)
  else inr q.

(** the questions of a [Test], validated one by one *)
Fixpoint schemas_Questions_validate (qs : list Question.t)
  : ValidationError + list Question.t :=
  match qs with
  | [] => inr []
  | q :: qs' =>
      match schemas_Question_validate q with
      | inl e => inl e
      | inr q' =>
          match schemas_Questions_validate qs' with
          | inl e => inl e
          | inr qs'' => inr (q' :: qs'')
          end
      end
  end.

(** [Test]: [duration_minutes] carries [ge=1] ([None] passes), and every
    question is validated *)
Definition schemas_Test_validate (t : TestModel.t)
  : ValidationError + TestModel.t :=
  if match TestModel.duration_minutes t with
     | Some d => d <? 1
     | None => false
     end
  then inl (greater_than_equal "duration_minutes" 1)
  else
    match schemas_Questions_validate (TestModel.questions t) with
    | inl e => inl e
    | inr qs =>
        inr {| TestModel.title := TestModel.title t;
               TestModel.subject := TestModel.subject t;
               TestModel.grade_level := TestModel.grade_level t;
               TestModel.description := TestModel.description t;
               TestModel.questions := qs;
               TestModel.duration_minutes := TestModel.duration_minutes t;
               TestModel.tags := TestModel.tags t |}
    end.

(** the points of a batch *)
Definition total_points (qs : list Question.t) : Z :=
  foldr (λ q total, Question.points q + total) 0 qs.

(** * Properties *)

(** ** The monad and the random source *)

Lemma bind_inr {A B} (m : Py A) (k : A → Py B) r a r' :
  m r = (inr a, r') → bind m k r = k a r'.
Proof. unfold bind. by intros ->. Qed.

Lemma bind_inl {A B} (m : Py A) (k : A → Py B) r e r' :
  m r = (inl e, r') → bind m k r = (inl e, r').
Proof. unfold bind. by intros ->. Qed.

(** run the first computation of a [let!] with its known result *)
Tactic Notation "step" constr(H) := rewrite (bind_inr _ _ _ _ _ H).
Tactic Notation "step" constr(H) "in" hyp(H') :=
  rewrite (bind_inr _ _ _ _ _ H) in H'.

(** every draw takes one cell of the tape and lands below its bound *)
Lemma randbelow_spec (n : nat) (r : Rng) :
  (0 < n)%nat →
  ∃ k, randbelow n r = (inr k, drop 1 r) ∧ (k < n)%nat.
Proof.
  intros Hn. destruct r as [|d r]; simpl.
  - by exists 0%nat.
  - exists (d mod n)%nat. split; [done|].
    apply Nat.mod_upper_bound. lia.
Qed.

Lemma choice_spec {A} (seq : list A) (r : Rng) :
  seq ≠ [] →
  ∃ x, choice seq r = (inr x, drop 1 r) ∧ x ∈ seq.
Proof.
  intros Hne. destruct seq as [|a seq]; [done|].
  unfold choice.
  destruct (randbelow_spec (length (a :: seq)) r) as (k & Hk & Hlt);
    [simpl; lia|].
  step Hk.
  destruct (lookup_lt_is_Some_2 (a :: seq) k Hlt) as [x Hx].
  rewrite Hx. exists x. split; [done|].
  by apply list_elem_of_lookup_2 with k.
Qed.

(** ** Shuffling permutes *)

Lemma insert_head_perm {A} (l : list A) (i : nat) (a b : A) :
  l !! i = Some b → b :: <[i:=a]> l ≡ₚ a :: l.
Proof.
  revert i. induction l as [|c l IH]; intros [|i] Hi; simplify_eq/=.
  - apply perm_swap.
  - rewrite perm_swap. rewrite (IH _ Hi). apply perm_swap.
Qed.

Lemma insert_swap_perm {A} (l : list A) (i j : nat) (a b : A) :
  l !! i = Some a → l !! j = Some b →
  <[j:=a]> (<[i:=b]> l) ≡ₚ l.
Proof.
  revert i j. induction l as [|c l IH]; intros [|i] [|j] Hi Hj; simplify_eq/=.
  - done.
  - by apply insert_head_perm.
  - by apply insert_head_perm.
  - f_equiv. by apply IH.
Qed.

Lemma swap_spec {A} (x : list A) (i j : nat) (r : Rng) :
  (i < length x)%nat → (j < length x)%nat →
  ∃ x', swap x i j r = (inr x', r) ∧ x' ≡ₚ x.
Proof.
  intros Hi Hj. unfold swap.
  destruct (lookup_lt_is_Some_2 x i Hi) as [a Ha].
  destruct (lookup_lt_is_Some_2 x j Hj) as [b Hb].
  rewrite Ha, Hb. eexists. split; [done|].
  by apply insert_swap_perm.
Qed.

(** a loop whose body draws once and keeps an invariant of the loop state *)
Lemma for_each_draw_inv {A S} (P : S → Prop) (body : A → S → Py S)
    (xs : list A) :
  (∀ a s r, a ∈ xs → P s → ∃ s', body a s r = (inr s', drop 1 r) ∧ P s') →
  ∀ s r, P s →
    ∃ s', for_each xs body s r = (inr s', drop (length xs) r) ∧ P s'.
Proof.
  induction xs as [|a xs IH]; intros Hbody s r Hs; simpl.
  - exists s. by rewrite drop_0.
  - destruct (Hbody a s r) as (s1 & H1 & Hs1); [left | done |].
    step H1.
    destruct (IH (λ a' s' r' Ha',
                    Hbody a' s' r' (list_elem_of_further _ _ _ Ha'))
                 s1 (drop 1 r) Hs1) as (s2 & H2 & Hs2).
    exists s2. rewrite H2, drop_drop. split; [do 2 f_equal; lia | done].
Qed.

Lemma shuffle_spec {A} (x : list A) (r : Rng) :
  ∃ x', shuffle x r = (inr x', drop (length x - 1) r) ∧ x' ≡ₚ x.
Proof.
  unfold shuffle.
  destruct (for_each_draw_inv (λ x', x' ≡ₚ x)
              (λ i x0, let! j := randbelow (i + 1) in swap x0 i j)
              (rev (seq 1 (length x - 1)))) with (s := x) (r := r)
    as (x' & Hx' & Hperm); [| done |].
  - intros i s r0 Hi Hs.
    apply list_elem_of_In, in_rev, in_seq in Hi.
    destruct (randbelow_spec (i + 1) r0) as (j & Hj & Hlt); [lia|].
    step Hj.
    pose proof (Permutation_length Hs) as Hlen.
    destruct (swap_spec s i j (drop 1 r0)) as (s' & Hs' & Hp); [lia | lia |].
    exists s'. split; [done|]. by rewrite Hp.
  - exists x'. rewrite Hx'. split; [|done].
    by rewrite length_rev, length_seq.
Qed.

(** ** [index] finds the first occurrence *)

Lemma index_from_spec (x : list string) (v : string) (k0 : nat) :
  v ∈ x →
  ∃ k, index_from x v k0 = Some (k0 + k)%nat ∧ x !! k = Some v ∧
       ∀ j, (j < k)%nat → x !! j ≠ Some v.
Proof.
  revert k0. induction x as [|a x IH]; intros k0 Hin; [by inversion Hin|].
  simpl. destruct (String.eqb_spec a v) as [->|Hne].
  - exists 0%nat. split; [f_equal; lia|]. split; [done|]. lia.
  - apply elem_of_cons in Hin as [->|Hin]; [done|].
    destruct (IH (S k0) Hin) as (k & Hk & Hlook & Hfirst).
    exists (S k). split; [rewrite Hk; f_equal; lia|]. split; [done|].
    intros [|j] Hj; simpl; [congruence|]. apply Hfirst. lia.
Qed.

Lemma index_spec (x : list string) (v : string) (r : Rng) :
  v ∈ x →
  ∃ k, index x v r = (inr (Z.of_nat k), r) ∧ x !! k = Some v ∧
       ∀ j, (j < k)%nat → x !! j ≠ Some v.
Proof.
  intros Hin. destruct (index_from_spec x v 0 Hin) as (k & Hk & Hlook & Hfirst).
  exists k. unfold index. by rewrite Hk.
Qed.

(** ** The synthesizers *)

Lemma BLOOM_LEVELS_cases (P : string → Prop) :
  P "Remember" → P "Understand" → P "Apply" → P "Analyze" → P "Evaluate" →
  P "Create" → ∀ bloom, bloom ∈ BLOOM_LEVELS → P bloom.
Proof.
  intros ? ? ? ? ? ? bloom Hin. unfold BLOOM_LEVELS in Hin.
  repeat (apply elem_of_cons in Hin as [->|Hin]; [done|]).
  by apply elem_of_nil in Hin.
Qed.

(** every level is a key of [verbs], with four verbs *)
Lemma verbs_lookup (bloom : string) :
  bloom ∈ BLOOM_LEVELS → ∃ vs, verbs !! bloom = Some vs ∧ length vs = 4%nat.
Proof.
  revert bloom. apply BLOOM_LEVELS_cases; eexists;
    (split; [vm_compute; reflexivity | reflexivity]).
Qed.

Lemma generate_mcq_run (topic : string) (grade : option string) (idx : Z)
    (r : Rng) :
  ∃ bloom vs verb opts k,
    choice BLOOM_LEVELS r = (inr bloom, drop 1 r) ∧ bloom ∈ BLOOM_LEVELS ∧
    verbs !! bloom = Some vs ∧
    choice vs (drop 1 r) = (inr verb, drop 2 r) ∧ verb ∈ vs ∧
    opts ≡ₚ mcq_distractors topic bloom ++ [mcq_correct topic bloom verb] ∧
    opts !! k = Some (mcq_correct topic bloom verb) ∧
    generate_mcq topic grade idx r =
      (inr {| Question.text := mcq_stem topic bloom verb idx;
              Question.type := "mcq";
              Question.options := Some opts;
              Question.correct_index := Some (Z.of_nat k);
              Question.answer_text := None;
              Question.points := 1;
              Question.bloom_level := Some bloom |}, drop 5 r).
Proof.
  destruct (choice_spec BLOOM_LEVELS r) as (bloom & Hbloom & Hin); [done|].
  destruct (verbs_lookup bloom Hin) as (vs & Hvs & Hlen).
  destruct (choice_spec vs (drop 1 r)) as (verb & Hverb & Hvin);
    [by destruct vs|].
  rewrite drop_drop in Hverb.
  destruct (shuffle_spec
              (mcq_distractors topic bloom ++ [mcq_correct topic bloom verb])
              (drop 2 r)) as (opts & Hsh & Hperm).
  rewrite drop_drop in Hsh.
  destruct (index_spec opts (mcq_correct topic bloom verb) (drop 5 r))
    as (k & Hk & Hlook & _).
  { rewrite Hperm. apply elem_of_app. right. by left. }
  exists bloom, vs, verb, opts, k. repeat (split; [done|]).
  unfold generate_mcq.
  step Hbloom.
  unfold getitem at 1. rewrite Hvs.
  rewrite (bind_inr _ _ (drop 1 r) vs (drop 1 r) eq_refl).
  step Hverb.
  unfold mcq_stem, mcq_correct, mcq_distractors in *.
  destruct (str_in bloom ["Remember"; "Understand"]).
  - replace (2 + (length _ - 1))%nat with 5%nat in Hsh by (simpl; lia).
    step Hsh. step Hk. done.
  - replace (2 + (length _ - 1))%nat with 5%nat in Hsh by (simpl; lia).
    step Hsh. step Hk. done.
Qed.

Lemma generate_short_run (topic : string) (grade : option string) (idx : Z)
    (r : Rng) :
  ∃ bloom,
    choice BLOOM_LEVELS r = (inr bloom, drop 1 r) ∧ bloom ∈ BLOOM_LEVELS ∧
    generate_short topic grade idx r =
      (inr {| Question.text :=
                "Q" +:+ str_of_int (idx + 1)
                    +:+ ". Briefly explain the following about "
                    +:+ topic +:+ ":";
              Question.type := "short";
              Question.options := None;
              Question.correct_index := None;
              Question.answer_text :=
                Some ("A 2-3 sentence explanation referencing "
                        +:+ topic +:+ ".");
              Question.points := 2;
              Question.bloom_level := Some bloom |}, drop 1 r).
Proof.
  destruct (choice_spec BLOOM_LEVELS r) as (bloom & Hbloom & Hin); [done|].
  exists bloom. repeat (split; [done|]).
  unfold generate_short. by step Hbloom.
Qed.

(** ** Strings *)

Lemma prefix_append_cancel (a b c : string) :
  String.prefix (a +:+ b) (a +:+ c) = String.prefix b c.
Proof.
  induction a as [|x a IH]; simpl; [done|].
  destruct (ascii_dec x x); [apply IH | done].
Qed.

(** a text assembled as "Q", the number, "." and a rest starts with the
    marker "Qk." *)
Lemma startswith_marker (k rest : string) :
  startswith ("Q" +:+ k +:+ "." +:+ rest) ("Q" +:+ k +:+ ".") = true.
Proof.
  unfold startswith.
  rewrite !prefix_append_cancel. simpl.
  destruct (ascii_dec "." "."); [|done]. by destruct rest.
Qed.

Lemma append_cons (x : ascii) (a b : string) :
  String x a +:+ b = String x (a +:+ b).
Proof. reflexivity. Qed.

Lemma append_nil_r (t : string) : t +:+ "" = t.
Proof.
  induction t as [|x t IH]; [reflexivity|]. by rewrite append_cons, IH.
Qed.

Lemma contains_suffix (pre t : string) : contains (pre +:+ t) t.
Proof. exists pre, "". by rewrite append_nil_r. Qed.

(** ** What the synthesizers return *)

Lemma generate_short_inv (topic : string) (grade : option string) (idx : Z)
    (r r' : Rng) (q : Question.t) :
  generate_short topic grade idx r = (inr q, r') →
  ∃ bloom, bloom ∈ BLOOM_LEVELS ∧
    q = {| Question.text :=
             "Q" +:+ str_of_int (idx + 1)
                 +:+ ". Briefly explain the following about "
                 +:+ topic +:+ ":";
           Question.type := "short";
           Question.options := None;
           Question.correct_index := None;
           Question.answer_text :=
             Some ("A 2-3 sentence explanation referencing "
                     +:+ topic +:+ ".");
           Question.points := 2;
           Question.bloom_level := Some bloom |}.
Proof.
  destruct (generate_short_run topic grade idx r) as (bloom & _ & Hin & Hrun).
  rewrite Hrun. intros [= <- _]. by exists bloom.
Qed.

Lemma generate_mcq_inv (topic : string) (grade : option string) (idx : Z)
    (r r' : Rng) (q : Question.t) :
  generate_mcq topic grade idx r = (inr q, r') →
  ∃ bloom vs verb opts k,
    bloom ∈ BLOOM_LEVELS ∧ verbs !! bloom = Some vs ∧ verb ∈ vs ∧
    opts ≡ₚ mcq_distractors topic bloom ++ [mcq_correct topic bloom verb] ∧
    opts !! k = Some (mcq_correct topic bloom verb) ∧
    q = {| Question.text := mcq_stem topic bloom verb idx;
           Question.type := "mcq";
           Question.options := Some opts;
           Question.correct_index := Some (Z.of_nat k);
           Question.answer_text := None;
           Question.points := 1;
           Question.bloom_level := Some bloom |}.
Proof.
  destruct (generate_mcq_run topic grade idx r)
    as (bloom & vs & verb & opts & k & _ & Hin & Hvs & _ & Hverb & Hperm
        & Hk & Hrun).
  rewrite Hrun. intros [= <- _]. by exists bloom, vs, verb, opts, k.
Qed.

(** ** The batch loop *)

Lemma for_each_app {A S} (xs ys : list A) (body : A → S → Py S) (s : S)
    (r : Rng) :
  for_each (xs ++ ys) body s r =
  (let! s' := for_each xs body s in for_each ys body s') r.
Proof.
  revert s r. induction xs as [|a xs IH]; intros s r; simpl; [reflexivity|].
  unfold bind. destruct (body a s r) as [[e|s1] r1]; [reflexivity|].
  by rewrite IH.
Qed.

Section batch.

Context (req : GenerateRequest.t).

Lemma iteration_total (i : Z) (r : Rng) :
  ∃ q r', iteration req i r q r'.
Proof.
  unfold iteration.
  assert (∃ kind r0,
    (if String.eqb (GenerateRequest.question_type req) "mixed"
     then choice ["mcq"; "short"]
     else ret (GenerateRequest.question_type req)) r = (inr kind, r0))
    as (kind & r0 & Hkind).
  { destruct (String.eqb _ "mixed"); [|by eexists _, _].
    destruct (choice_spec ["mcq"; "short"] r) as (kind & Hk & _); [done|].
    by eexists _, _. }
  destruct (String.eqb kind "short") eqn:Hshort.
  - destruct (generate_short_run (GenerateRequest.topic req)
                (GenerateRequest.grade_level req) i r0) as (? & _ & _ & Hq).
    eexists _, _, kind, r0. by rewrite Hshort.
  - destruct (generate_mcq_run (GenerateRequest.topic req)
                (GenerateRequest.grade_level req) i r0)
      as (? & ? & ? & ? & ? & _ & _ & _ & _ & _ & _ & _ & Hq).
    eexists _, _, kind, r0. by rewrite Hshort.
Qed.

Lemma generate_questions_body_iteration (i : Z)
    (qs : list Question.t) (r : Rng) (q : Question.t) (r' : Rng) :
  iteration req i r q r' →
  generate_questions_body req i qs r = (inr (qs ++ [q]), r').
Proof.
  intros (kind & r0 & Hkind & Hq). unfold generate_questions_body.
  step Hkind.
  destruct (String.eqb kind "short"); by step Hq.
Qed.

Lemma for_each_iterations (xs : list Z) :
  ∀ qs r, ∃ qs' r',
    for_each xs (generate_questions_body req) qs r = (inr (qs ++ qs'), r') ∧
    Forall2 (λ i q, ∃ r0 r1, iteration req i r0 q r1) xs qs'.
Proof.
  induction xs as [|i xs IH]; intros qs r; simpl.
  - exists [], r. by rewrite app_nil_r.
  - destruct (iteration_total i r) as (q & r1 & Hit).
    step (generate_questions_body_iteration i qs r q r1 Hit).
    destruct (IH (qs ++ [q]) r1) as (qs' & r' & Hrun & Hall).
    exists (q :: qs'), r'. rewrite Hrun, <- app_assoc. split; [done|].
    constructor; [by eexists _, _ | done].
Qed.

(** the batch never raises, and appends one item per ordinal of the range *)
Lemma generate_questions_run (r : Rng) :
  ∃ qs r',
    generate_questions req r = (inr qs, r') ∧
    Forall2 (λ i q, ∃ r0 r1, iteration req i r0 q r1)
            (range (GenerateRequest.num_questions req)) qs.
Proof.
  destruct (for_each_iterations
              (range (GenerateRequest.num_questions req)) [] r)
    as (qs & r' & Hrun & Hall).
  by exists qs, r'.
Qed.

(** *** What an iteration appends *)

Lemma iteration_inv (i : Z) (r r' : Rng)
    (q : Question.t) :
  iteration req i r q r' →
  ∃ kind r0,
    (if String.eqb (GenerateRequest.question_type req) "mixed"
     then choice ["mcq"; "short"] r = (inr kind, r0) ∧
          kind ∈ ["mcq"; "short"]
     else kind = GenerateRequest.question_type req ∧ r0 = r) ∧
    ((kind = "short" ∧
      generate_short (GenerateRequest.topic req)
                     (GenerateRequest.grade_level req) i r0 = (inr q, r')) ∨
     (kind ≠ "short" ∧
      generate_mcq (GenerateRequest.topic req)
                   (GenerateRequest.grade_level req) i r0 = (inr q, r'))).
Proof.
  intros (kind & r0 & Hkind & Hq). exists kind, r0. split.
  - destruct (String.eqb _ "mixed"); [|by injection Hkind as <- <-].
    split; [done|].
    destruct (choice_spec ["mcq"; "short"] r) as (kind' & Hk & Hin); [done|].
    rewrite Hk in Hkind. by injection Hkind as <- _.
  - destruct (String.eqb_spec kind "short"); [by left | by right].
Qed.

Lemma iteration_type (i : Z) (r r' : Rng)
    (q : Question.t) :
  iteration req i r q r' →
  ∃ kind r0,
    (if String.eqb (GenerateRequest.question_type req) "mixed"
     then choice ["mcq"; "short"] r = (inr kind, r0) ∧
          kind ∈ ["mcq"; "short"]
     else kind = GenerateRequest.question_type req ∧ r0 = r) ∧
    Question.type q = (if String.eqb kind "short" then "short" else "mcq").
Proof.
  intros Hit. destruct (iteration_inv _ _ _ _ Hit) as (kind & r0 & Hk & Hq).
  exists kind, r0. split; [done|].
  destruct Hq as [[-> Hq]|[Hne Hq]].
  - by apply generate_short_inv in Hq as (? & _ & ->).
  - apply generate_mcq_inv in Hq as (? & ? & ? & ? & ? & _ & _ & _ & _ & _ & ->).
    simpl. by destruct (String.eqb_spec kind "short").
Qed.

Lemma iteration_marker (i : Z) (r r' : Rng)
    (q : Question.t) :
  iteration req i r q r' →
  startswith (Question.text q) ("Q" +:+ str_of_int (i + 1) +:+ ".") = true.
Proof.
  intros Hit. destruct (iteration_inv _ _ _ _ Hit) as (kind & r0 & _ & Hq).
  destruct Hq as [[_ Hq]|[_ Hq]].
  - apply generate_short_inv in Hq as (? & _ & ->). apply startswith_marker.
  - apply generate_mcq_inv in Hq as (b & ? & ? & ? & ? & _ & _ & _ & _ & _ & ->).
    simpl. unfold mcq_stem. destruct (str_in b _); apply startswith_marker.
Qed.

Lemma iteration_invariant (i : Z) (r r' : Rng)
    (q : Question.t) :
  iteration req i r q r' → question_invariant q.
Proof.
  intros Hit. destruct (iteration_inv _ _ _ _ Hit) as (kind & r0 & _ & Hq).
  destruct Hq as [[_ Hq]|[_ Hq]].
  - apply generate_short_inv in Hq as (b & Hb & ->).
    repeat split; simpl; eauto; done.
  - apply generate_mcq_inv in Hq as (b & ? & ? & ? & ? & Hb & _ & _ & _ & _ & ->).
    repeat split; simpl; eauto; done.
Qed.

End batch.

Lemma range_length (n : Z) : length (range n) = Z.to_nat n.
Proof. apply length_seqZ. Qed.

Lemma range_lookup (n : Z) (i : nat) (x : Z) :
  range n !! i = Some x → x = Z.of_nat i.
Proof. unfold range. intros [-> _]%lookup_seqZ. lia. Qed.

(** ** The batch generator *)

(** C1. For a request with a non-empty topic, [num_questions = n] in
    [[1, 50]] and a question type among mcq, short and mixed,
    [generate_questions] returns (it does not raise, whatever the random
    source answers) after one iteration per ordinal of [range(n)], [n] of
    them, a list of exactly [n] questions, and the text of the question at
    index [i] starts with the marker "Q{i+1}.". *)
Theorem generate_questions_count_and_order (req : GenerateRequest.t) (r : Rng) :
  valid_request req →
  ∃ qs r',
    generate_questions req r = (inr qs, r') ∧
    Z.of_nat (length (range (GenerateRequest.num_questions req)))
      = GenerateRequest.num_questions req ∧
    Z.of_nat (length qs) = GenerateRequest.num_questions req ∧
    ∀ (i : nat) (q : Question.t),
      qs !! i = Some q →
      startswith (Question.text q)
                 ("Q" +:+ str_of_int (Z.of_nat i + 1) +:+ ".") = true.
Proof.
  intros (_ & Hn & _).
  destruct (generate_questions_run req r) as (qs & r' & Hrun & Hall).
  exists qs, r'. split; [done|].
  pose proof (Forall2_length _ _ _ Hall) as Hlen.
  rewrite range_length in *. repeat split; [lia | lia |].
  intros i q Hq.
  destruct (Forall2_lookup_r _ _ _ _ _ Hall Hq) as (x & Hx & r0 & r1 & Hit).
  apply range_lookup in Hx as ->. by apply iteration_marker in Hit.
Qed.

Lemma photosynthesis_req_valid : valid_request photosynthesis_req.
Proof.
  unfold valid_request. simpl. split; [done|]. split; [lia|].
  apply elem_of_cons. right. apply elem_of_cons. by left.
Defined.

Lemma generate_questions_count_and_order_witness :
  ∃ qs r',
    generate_questions photosynthesis_req [3; 4]%nat = (inr qs, r') ∧
    Z.of_nat (length (range 2)) = 2 ∧
    Z.of_nat (length qs) = 2 ∧
    ∀ (i : nat) (q : Question.t),
      qs !! i = Some q →
      startswith (Question.text q)
                 ("Q" +:+ str_of_int (Z.of_nat i + 1) +:+ ".") = true.
Proof.
  apply (generate_questions_count_and_order photosynthesis_req [3; 4]%nat).
  exact photosynthesis_req_valid.
Defined.

(** the example of the specification: two short questions about
    Photosynthesis *)
Example generate_questions_photosynthesis :
  generate_questions photosynthesis_req [3; 4]%nat =
  (inr [ {| Question.text :=
              "Q1. Briefly explain the following about Photosynthesis:";
            Question.type := "short";
            Question.options := None;
            Question.correct_index := None;
            Question.answer_text :=
              Some "A 2-3 sentence explanation referencing Photosynthesis.";
            Question.points := 2;
            Question.bloom_level := Some "Analyze" |};
         {| Question.text :=
              "Q2. Briefly explain the following about Photosynthesis:";
            Question.type := "short";
            Question.options := None;
            Question.correct_index := None;
            Question.answer_text :=
              Some "A 2-3 sentence explanation referencing Photosynthesis.";
            Question.points := 2;
            Question.bloom_level := Some "Evaluate" |} ], []).
Proof. vm_compute. reflexivity. Qed.

(** C4. For every topic and ordinal [idx], [generate_short] returns a
    question of type "short" with no options and no correct index, the
    non-empty answer text "A 2-3 sentence explanation referencing {topic}.",
    2 points, the text
    "Q{idx+1}. Briefly explain the following about {topic}:" and a Bloom
    level that is the one drawn from the six levels. *)
Theorem generate_short_shape (topic : string) (grade : option string)
    (idx : Z) (r : Rng) :
  ∃ bloom r',
    choice BLOOM_LEVELS r = (inr bloom, r') ∧ bloom ∈ BLOOM_LEVELS ∧
    "A 2-3 sentence explanation referencing " +:+ topic +:+ "." ≠ "" ∧
    generate_short topic grade idx r =
      (inr {| Question.text :=
                "Q" +:+ str_of_int (idx + 1)
                    +:+ ". Briefly explain the following about "
                    +:+ topic +:+ ":";
              Question.type := "short";
              Question.options := None;
              Question.correct_index := None;
              Question.answer_text :=
                Some ("A 2-3 sentence explanation referencing "
                        +:+ topic +:+ ".");
              Question.points := 2;
              Question.bloom_level := Some bloom |}, r').
Proof.
  destruct (generate_short_run topic grade idx r) as (bloom & Hb & Hin & Hrun).
  exists bloom, (drop 1 r). repeat split; try done.
Qed.

(** C5. Every question [generate_questions] returns, for any request and
    any answers of the random source, satisfies the invariant of its type:
    an mcq has options and a correct index and no answer text, a short has
    an answer text and neither options nor a correct index, and the Bloom
    level is present and one of the six levels. *)
Theorem generate_questions_invariant (req : GenerateRequest.t) (r : Rng) :
  ∃ qs r',
    generate_questions req r = (inr qs, r') ∧
    Forall question_invariant qs.
Proof.
  destruct (generate_questions_run req r) as (qs & r' & Hrun & Hall).
  exists qs, r'. split; [done|].
  apply (Forall2_Forall_r _ _ _ _ Hall).
  apply Forall_forall. intros i _ q (r0 & r1 & Hit).
  by apply iteration_invariant in Hit.
Qed.

(** C10. For a question type other than "short" and "mixed", whether or
    not it is one of the documented values, [generate_questions] raises
    nothing and appends for every ordinal of the range an mcq question
    (carrying that ordinal's marker). *)
Theorem generate_questions_fallback_mcq (req : GenerateRequest.t) (r : Rng) :
  GenerateRequest.question_type req ≠ "short" →
  GenerateRequest.question_type req ≠ "mixed" →
  ∃ qs r',
    generate_questions req r = (inr qs, r') ∧
    Forall2 (λ i q,
               Question.type q = "mcq" ∧
               startswith (Question.text q)
                          ("Q" +:+ str_of_int (i + 1) +:+ ".") = true)
            (range (GenerateRequest.num_questions req)) qs.
Proof.
  intros Hshort Hmixed.
  destruct (generate_questions_run req r) as (qs & r' & Hrun & Hall).
  exists qs, r'. split; [done|].
  eapply Forall2_impl; [exact Hall|].
  intros i q (r0 & r1 & Hit). split; [|by apply iteration_marker in Hit].
  apply iteration_type in Hit as (kind & ? & Hkind & ->).
  destruct (String.eqb_spec (GenerateRequest.question_type req) "mixed");
    [done|].
  destruct Hkind as [-> _].
  by destruct (String.eqb_spec (GenerateRequest.question_type req) "short").
Qed.

(** the empty string is such a type as well *)
Example generate_questions_empty_type :
  ∃ qs r',
    generate_questions (GenerateRequest.mk "cells" None 2 "") [] = (inr qs, r') ∧
    Question.type <$> qs = ["mcq"; "mcq"].
Proof. eexists _, _. vm_compute. done. Qed.

Lemma generate_questions_fallback_mcq_witness :
  ∃ qs r',
    generate_questions essay_req [2; 1; 3; 2; 1]%nat = (inr qs, r') ∧
    Forall2 (λ i q,
               Question.type q = "mcq" ∧
               startswith (Question.text q)
                          ("Q" +:+ str_of_int (i + 1) +:+ ".") = true)
            (range 2) qs.
Proof.
  apply (generate_questions_fallback_mcq essay_req [2; 1; 3; 2; 1]%nat);
    simpl; discriminate.
Defined.

(** ** The multiple-choice synthesizer *)

Lemma str_in_spec (x : string) (l : list string) :
  str_in x l = true ↔ x ∈ l.
Proof.
  unfold str_in. rewrite existsb_exists. split.
  - intros (y & Hy & ->%String.eqb_eq). by apply list_elem_of_In.
  - intros Hin. exists x. split; [by apply list_elem_of_In|].
    apply String.eqb_refl.
Qed.

Lemma append_assoc (a b c : string) : (a +:+ b) +:+ c = a +:+ b +:+ c.
Proof.
  induction a as [|x a IH]; [reflexivity|]. by rewrite !append_cons, IH.
Qed.

Lemma contains_append_l (a b t : string) : contains b t → contains (a +:+ b) t.
Proof.
  intros (pre & post & ->). exists (a +:+ pre), post. by rewrite append_assoc.
Qed.

(** the four option texts are pairwise different, whatever the topic and
    the verb: they part within their fixed openings *)
Lemma mcq_options_NoDup (topic bloom verb : string) :
  NoDup (mcq_distractors topic bloom ++ [mcq_correct topic bloom verb]).
Proof.
  unfold mcq_distractors, mcq_correct.
  destruct (str_in bloom _); simpl;
    repeat (apply NoDup_cons; split;
            [intros Hin;
             repeat (apply elem_of_cons in Hin as [Hin|Hin];
                     [vm_compute in Hin; discriminate|]);
             by apply elem_of_nil in Hin|]);
    apply NoDup_nil_2.
Qed.

Lemma mcq_options_contain (topic bloom verb : string) :
  Forall (λ o, contains o topic)
         (mcq_distractors topic bloom ++ [mcq_correct topic bloom verb]).
Proof.
  unfold mcq_distractors, mcq_correct.
  destruct (str_in bloom _); simpl;
    repeat (apply Forall_cons; split;
            [repeat apply contains_append_l; apply (contains_suffix "")|]);
    apply Forall_nil_2.
Qed.

(** C2. For every topic and ordinal, [generate_mcq] returns a question of
    type "mcq" worth 1 point with exactly 4 options and a correct index
    [ci], [0 <= ci < 4]; the options are a rearrangement of the three
    distractors of the level group followed by its correct text (the fact
    style for Remember and Understand, the application style otherwise),
    they are pairwise different, each mentions the topic, and the option at
    [ci], and only that one, is the correct text: [ci] is where the shuffle
    left it. *)
Theorem generate_mcq_shape (topic : string) (grade : option string)
    (idx : Z) (r : Rng) :
  ∃ q r' bloom vs verb opts ci,
    generate_mcq topic grade idx r = (inr q, r') ∧
    bloom ∈ BLOOM_LEVELS ∧ verbs !! bloom = Some vs ∧ verb ∈ vs ∧
    Question.type q = "mcq" ∧
    Question.points q = 1 ∧
    Question.bloom_level q = Some bloom ∧
    Question.options q = Some opts ∧
    Question.correct_index q = Some ci ∧
    length opts = 4%nat ∧
    0 ≤ ci < 4 ∧
    let correct :=
      if str_in bloom ["Remember"; "Understand"]
      then "A concise fact about " +:+ topic
      else "An example that shows how to " +:+ verb +:+ " using " +:+ topic in
    let distractors :=
      if str_in bloom ["Remember"; "Understand"]
      then [ "An unrelated idea about " +:+ topic;
             "A partially correct idea about " +:+ topic;
             "A common misconception about " +:+ topic ]
      else [ "An example unrelated to " +:+ topic;
             "Incorrect application of " +:+ topic;
             "Vague statement without using " +:+ topic ] in
    opts ≡ₚ distractors ++ [correct] ∧
    NoDup opts ∧
    Forall (λ o, contains o topic) opts ∧
    opts !! Z.to_nat ci = Some correct ∧
    (∀ j, opts !! j = Some correct → j = Z.to_nat ci).
Proof.
  destruct (generate_mcq_run topic grade idx r)
    as (bloom & vs & verb & opts & k & _ & Hin & Hvs & _ & Hverb & Hperm
        & Hk & Hrun).
  pose proof (mcq_options_NoDup topic bloom verb) as Hnd.
  pose proof (mcq_options_contain topic bloom verb) as Hct.
  rewrite <- Hperm in Hnd, Hct.
  assert (length opts = 4%nat) as Hlen.
  { rewrite Hperm. unfold mcq_distractors. by destruct (str_in bloom _). }
  pose proof (lookup_lt_Some _ _ _ Hk) as Hlt.
  eexists _, _, bloom, vs, verb, opts, (Z.of_nat k).
  split; [exact Hrun|]. simpl. rewrite Nat2Z.id.
  repeat (split; [done || lia|]).
  intros j Hj. eapply NoDup_lookup; [exact Hnd | exact Hj | exact Hk].
Qed.

(** C3. For every topic and ordinal, with [bloom] the level and [verb] the
    verb that [generate_mcq] draws: if [bloom] is Apply, Analyze, Evaluate
    or Create the text is
    "Q{idx+1}. In the context of {topic}, {verb} the correct option.",
    and otherwise, [bloom] then being Remember or Understand, it is
    "Q{idx+1}. Which of the following best relates to {topic}?". *)
Theorem generate_mcq_stem (topic : string) (grade : option string)
    (idx : Z) (r : Rng) :
  ∃ q r' bloom vs verb,
    choice BLOOM_LEVELS r = (inr bloom, drop 1 r) ∧
    verbs !! bloom = Some vs ∧
    choice vs (drop 1 r) = (inr verb, drop 2 r) ∧
    generate_mcq topic grade idx r = (inr q, r') ∧
    Question.bloom_level q = Some bloom ∧
    (bloom ∈ ["Apply"; "Analyze"; "Evaluate"; "Create"] ∨
     bloom ∈ ["Remember"; "Understand"]) ∧
    (bloom ∈ ["Apply"; "Analyze"; "Evaluate"; "Create"] →
     Question.text q =
       "Q" +:+ str_of_int (idx + 1) +:+ ". In the context of " +:+ topic
           +:+ ", " +:+ verb +:+ " the correct option.") ∧
    (bloom ∉ ["Apply"; "Analyze"; "Evaluate"; "Create"] →
     bloom ∈ ["Remember"; "Understand"] ∧
     Question.text q =
       "Q" +:+ str_of_int (idx + 1)
           +:+ ". Which of the following best relates to " +:+ topic +:+ "?").
Proof.
  destruct (generate_mcq_run topic grade idx r)
    as (bloom & vs & verb & opts & k & Hb & Hin & Hvs & Hv & _ & _ & _ & Hrun).
  eexists _, _, bloom, vs, verb. repeat (split; [done|]). simpl.
  assert (bloom ∈ ["Apply"; "Analyze"; "Evaluate"; "Create"] ∨
          bloom ∈ ["Remember"; "Understand"]) as Hgroup.
  { clear -Hin. revert bloom Hin.
    apply BLOOM_LEVELS_cases; rewrite <- !str_in_spec; auto. }
  split; [done|]. unfold mcq_stem.
  destruct (str_in bloom ["Apply"; "Analyze"; "Evaluate"; "Create"]) eqn:Hs.
  - split; [done|]. intros Hn. destruct Hn. by apply str_in_spec.
  - split; [intros ?%str_in_spec; congruence|].
    intros _. split; [|done].
    destruct Hgroup as [?%str_in_spec|?]; [congruence|done].
Qed.

(** both stems occur *)
Example generate_mcq_stem_apply :
  ∃ q r',
    generate_mcq "cells" None 0 [2; 1; 3; 2; 1]%nat = (inr q, r') ∧
    Question.bloom_level q = Some "Apply" ∧
    Question.text q
      = "Q1. In the context of cells, demonstrate the correct option.".
Proof. eexists _, _. vm_compute. done. Qed.

Example generate_mcq_stem_recall :
  ∃ q r',
    generate_mcq "cells" None 6 [1; 0; 0; 0; 0]%nat = (inr q, r') ∧
    Question.bloom_level q = Some "Understand" ∧
    Question.text q = "Q7. Which of the following best relates to cells?".
Proof. eexists _, _. vm_compute. done. Qed.

(** ** The test assembler *)

(** the handler runs the batch generator once and wraps its result *)
Lemma generate_test_run (str_title : string → string)
    (req : GenerateRequest.t) (r : Rng) :
  ∃ qs r',
    generate_questions req r = (inr qs, r') ∧
    Forall2 (λ i q, ∃ r0 r1, iteration req i r0 q r1)
            (range (GenerateRequest.num_questions req)) qs ∧
    generate_test str_title req r = (inr (assemble str_title req qs), r').
Proof.
  destruct (generate_questions_run req r) as (qs & r' & Hrun & Hall).
  exists qs, r'. repeat (split; [done|]).
  unfold generate_test. by step Hrun.
Qed.

Lemma generate_mcq_ignores_grade (topic : string) (g1 g2 : option string)
    (idx : Z) :
  generate_mcq topic g1 idx = generate_mcq topic g2 idx.
Proof. reflexivity. Qed.

Lemma generate_short_ignores_grade (topic : string) (g1 g2 : option string)
    (idx : Z) :
  generate_short topic g1 idx = generate_short topic g2 idx.
Proof. reflexivity. Qed.

Lemma generate_questions_body_ignores_grade (topic : string)
    (g1 g2 : option string) (n : Z) (qtype : string) (i : Z)
    (qs : list Question.t) :
  generate_questions_body (GenerateRequest.mk topic g1 n qtype) i qs
    = generate_questions_body (GenerateRequest.mk topic g2 n qtype) i qs.
Proof.
  unfold generate_questions_body. simpl.
  by rewrite (generate_mcq_ignores_grade topic g1 g2),
             (generate_short_ignores_grade topic g1 g2).
Qed.

Lemma for_each_ext {A S} (xs : list A) (body1 body2 : A → S → Py S) :
  (∀ a s, body1 a s = body2 a s) →
  ∀ s r, for_each xs body1 s r = for_each xs body2 s r.
Proof.
  intros Hext. induction xs as [|a xs IH]; intros s r; simpl; [done|].
  unfold bind. rewrite Hext. destruct (body2 a s r) as [[e|s1] r1]; [done|].
  apply IH.
Qed.

(** C6. For every request, the test [generate_test] assembles has as title
    the title-cased topic, that is [str.title] of the topic whatever that
    function is, followed by " - {num_questions} Question Test",
    as description "Auto-generated {question_type} test about {topic}", as
    duration [max(10, num_questions * 2)], the tags "auto", "generated" and
    the topic in that order, the topic as subject, the grade level of the
    request, and as questions the generated batch in generation order; the
    test is a function of the request and of the generated questions. *)
Theorem generate_test_assembles (str_title : string → string)
    (req : GenerateRequest.t) (r : Rng) :
  ∃ qs r',
    generate_questions req r = (inr qs, r') ∧
    generate_test str_title req r =
      (inr {| TestModel.title :=
                str_title (GenerateRequest.topic req) +:+ " - "
                  +:+ str_of_int (GenerateRequest.num_questions req)
                  +:+ " Question Test";
              TestModel.subject := Some (GenerateRequest.topic req);
              TestModel.grade_level := GenerateRequest.grade_level req;
              TestModel.description :=
                Some ("Auto-generated " +:+ GenerateRequest.question_type req
                        +:+ " test about " +:+ GenerateRequest.topic req);
              TestModel.questions := qs;
              TestModel.duration_minutes :=
                Some (Z.max 10 (GenerateRequest.num_questions req * 2));
              TestModel.tags :=
                ["auto"; "generated"; GenerateRequest.topic req] |}, r').
Proof.
  destruct (generate_test_run str_title req r) as (qs & r' & Hrun & _ & Ht).
  by exists qs, r'.
Qed.

(** What [ascii_title] does, character by character: the character at
    place [i] is lowered when the one before it in the text is a letter and
    raised otherwise, the first one being raised. *)
Lemma ascii_title_from_get (s : string) (previous_is_cased : bool) (i : nat)
    (c : ascii) :
  String.get i s = Some c →
  String.get i (ascii_title_from previous_is_cased s)
    = Some (if match i with
               | O => previous_is_cased
               | S j => match String.get j s with
                        | Some p => is_cased p
                        | None => false
                        end
               end
            then to_lower c else to_upper c).
Proof.
  revert previous_is_cased i.
  induction s as [|a s IH]; intros b [|i] Hc; simpl in *; try done.
  - by injection Hc as ->.
  - rewrite (IH (is_cased a) i Hc). by destruct i.
Qed.

Example ascii_title_letters :
  ascii_title "abcdefghijklmnopqrstuvwxyz" = "Abcdefghijklmnopqrstuvwxyz" ∧
  ascii_title "ABCDEFGHIJKLMNOPQRSTUVWXYZ" = "Abcdefghijklmnopqrstuvwxyz" ∧
  ascii_title "a b c d e f g h i j k l m n o p q r s t u v w x y z"
    = "A B C D E F G H I J K L M N O P Q R S T U V W X Y Z" ∧
  ascii_title "plant cells, 2nd x-ray: o'neil_[`z{@" = "Plant Cells, 2Nd X-Ray: O'Neil_[`Z{@".
Proof. repeat split. Qed.

(** the durations the specification gives: 3 questions, 10 minutes; 10
    questions, 20 minutes *)
Example generate_test_duration_3 :
  ∃ t r',
    generate_test ascii_title
                  (GenerateRequest.mk "plant cells" (Some "9") 3 "short") []
      = (inr t, r') ∧
    TestModel.title t = "Plant Cells - 3 Question Test" ∧
    TestModel.duration_minutes t = Some 10 ∧
    TestModel.tags t = ["auto"; "generated"; "plant cells"].
Proof. eexists _, _. vm_compute. done. Qed.

Example generate_test_duration_10 :
  ∃ t r',
    generate_test ascii_title (GenerateRequest.mk "dna" None 10 "short") []
      = (inr t, r') ∧
    TestModel.duration_minutes t = Some 20.
Proof. eexists _, _. vm_compute. done. Qed.

(** C9. Two runs on requests that differ in the grade level only, started
    on the same state of the random source, return the same questions and
    leave the source in the same state; the grade level only shows in the
    [grade_level] field of the assembled test, unchanged. *)
Theorem grade_level_noninterference (str_title : string → string)
    (topic : string) (g1 g2 : option string) (n : Z) (qtype : string)
    (r : Rng) :
  generate_questions (GenerateRequest.mk topic g1 n qtype) r
    = generate_questions (GenerateRequest.mk topic g2 n qtype) r ∧
  ∃ t1 t2 r',
    generate_test str_title (GenerateRequest.mk topic g1 n qtype) r
      = (inr t1, r') ∧
    generate_test str_title (GenerateRequest.mk topic g2 n qtype) r
      = (inr t2, r') ∧
    TestModel.questions t1 = TestModel.questions t2 ∧
    TestModel.grade_level t1 = g1 ∧
    TestModel.grade_level t2 = g2.
Proof.
  assert (generate_questions (GenerateRequest.mk topic g1 n qtype) r
          = generate_questions (GenerateRequest.mk topic g2 n qtype) r) as Heq.
  { apply for_each_ext. intros i qs.
    apply generate_questions_body_ignores_grade. }
  split; [exact Heq|].
  destruct (generate_test_run str_title (GenerateRequest.mk topic g1 n qtype) r)
    as (qs & r' & Hq & _ & Ht).
  pose proof (generate_test_run str_title
                (GenerateRequest.mk topic g2 n qtype) r)
    as (qs2 & r2 & Hq2 & _ & Ht2).
  rewrite <- Heq, Hq in Hq2. injection Hq2 as <- <-.
  eexists _, _, r'. split; [exact Ht|]. split; [exact Ht2|]. done.
Qed.

(** ** The request boundary *)

(** C8, as the specification states it, fails: the boundary accepts a
    request with an empty topic, and one with a question type outside
    mcq, short and mixed; the handler then answers with a test. *)
Lemma boundary_accepts_invalid_requests :
  (GenerateRequest_validate (Body.mk (Some "") None (Some 5) (Some "mcq"))
     = inr (GenerateRequest.mk "" None 5 "mcq") ∧
   ¬ valid_request (GenerateRequest.mk "" None 5 "mcq") ∧
   ∃ t, post_tests_generate ascii_title
          (Body.mk (Some "") None (Some 5) (Some "mcq")) []
        = (ok t, [])) ∧
  (GenerateRequest_validate (Body.mk (Some "cells") None (Some 5) (Some "essay"))
     = inr (GenerateRequest.mk "cells" None 5 "essay") ∧
   ¬ valid_request (GenerateRequest.mk "cells" None 5 "essay") ∧
   ∃ t, post_tests_generate ascii_title
          (Body.mk (Some "cells") None (Some 5) (Some "essay")) []
        = (ok t, [])).
Proof.
  split; (split; [reflexivity|]); split.
  - by intros [Htopic _].
  - eexists. vm_compute. reflexivity.
  - intros (_ & _ & Hin). simpl in Hin.
    repeat (apply elem_of_cons in Hin as [Hin|Hin]; [discriminate|]).
    by apply elem_of_nil in Hin.
  - eexists. vm_compute. reflexivity.
Qed.

(** C8, amended. The boundary rejects a body exactly when the topic is
    missing or [num_questions] (5 when absent) is outside [[1, 50]]: the
    answer is then the validation error, and the handler has not run (the
    random source is untouched).  Every other body, whatever its topic
    text and its question type, is accepted as it is and answered with a
    test; so [num_questions = 1] and [num_questions = 50] are accepted.
    The batch generator itself raises nothing on any request. *)
Theorem boundary_validates_num_questions (str_title : string → string)
    (body : Body.t) (r : Rng) :
  let n := default 5 (Body.num_questions body) in
  (Body.topic body = None ∨ n < 1 ∨ 50 < n →
   ∃ e, GenerateRequest_validate body = inl e ∧
        post_tests_generate str_title body r = (unprocessable e, r)) ∧
  (∀ topic, Body.topic body = Some topic → 1 ≤ n ≤ 50 →
   GenerateRequest_validate body =
     inr {| GenerateRequest.topic := topic;
            GenerateRequest.grade_level := Body.grade_level body;
            GenerateRequest.num_questions := n;
            GenerateRequest.question_type :=
              default "mcq" (Body.question_type body) |} ∧
   ∃ t r', post_tests_generate str_title body r = (ok t, r') ∧
           Z.of_nat (length (TestModel.questions t)) = n) ∧
  (∀ req r0, ∃ qs r', generate_questions req r0 = (inr qs, r')).
Proof.
  intros n. split; [|split].
  - intros Hbad. unfold post_tests_generate, GenerateRequest_validate.
    destruct (Body.topic body) as [topic|]; [|by eexists].
    fold n. destruct (Z.ltb_spec n 1); [by eexists|].
    destruct (Z.ltb_spec 50 n); [by eexists|].
    destruct Hbad as [?|[?|?]]; [done | lia | lia].
  - intros topic Htopic Hn.
    assert (GenerateRequest_validate body =
      inr {| GenerateRequest.topic := topic;
             GenerateRequest.grade_level := Body.grade_level body;
             GenerateRequest.num_questions := n;
             GenerateRequest.question_type :=
               default "mcq" (Body.question_type body) |}) as Hval.
    { unfold GenerateRequest_validate. rewrite Htopic. fold n.
      destruct (Z.ltb_spec n 1); [lia|]. by destruct (Z.ltb_spec 50 n); [lia|]. }
    split; [exact Hval|]. unfold post_tests_generate. rewrite Hval.
    match goal with |- context [generate_test _ ?req r] =>
      destruct (generate_test_run str_title req r)
        as (qs & r' & Hq & Hall & ->)
    end.
    eexists _, r'. split; [done|]. simpl.
    rewrite <- (Forall2_length _ _ _ Hall), range_length. simpl. lia.
  - intros req r0. destruct (generate_questions_run req r0) as (qs & r' & ? & _).
    by exists qs, r'.
Qed.

Lemma boundary_validates_num_questions_witness :
  let body := Body.mk (Some "cells") None (Some 50) None in
  (∃ e, GenerateRequest_validate (Body.mk None None (Some 0) None) = inl e ∧
        post_tests_generate ascii_title (Body.mk None None (Some 0) None)
                            [7]%nat
          = (unprocessable e, [7]%nat)) ∧
  (GenerateRequest_validate body = inr (GenerateRequest.mk "cells" None 50 "mcq")
   ∧ ∃ t r', post_tests_generate ascii_title body [7]%nat = (ok t, r') ∧
             Z.of_nat (length (TestModel.questions t)) = 50).
Proof.
  split.
  - apply (proj1 (boundary_validates_num_questions ascii_title
                    (Body.mk None None (Some 0) None) [7]%nat)).
    by left.
  - apply (proj1 (proj2 (boundary_validates_num_questions ascii_title
                           (Body.mk (Some "cells") None (Some 50) None)
                           [7]%nat)) "cells");
      [reflexivity | simpl; lia].
Defined.

(** the bounds of [num_questions]: 1 and 50 pass, 0 and 51 do not *)
Example boundary_num_questions_bounds :
  GenerateRequest_validate (Body.mk (Some "cells") None (Some 1) None)
    = inr (GenerateRequest.mk "cells" None 1 "mcq") ∧
  GenerateRequest_validate (Body.mk (Some "cells") None (Some 50) None)
    = inr (GenerateRequest.mk "cells" None 50 "mcq") ∧
  GenerateRequest_validate (Body.mk (Some "cells") None (Some 0) None)
    = inl (greater_than_equal "num_questions" 1) ∧
  GenerateRequest_validate (Body.mk (Some "cells") None (Some 51) None)
    = inl (less_than_equal "num_questions" 50).
Proof. repeat split. Qed.

(** ** Mixed batches *)

Lemma range_split (n : Z) (k : nat) :
  Z.of_nat k < n →
  range n = range (Z.of_nat k)
              ++ Z.of_nat k :: seqZ (Z.of_nat k + 1) (n - Z.of_nat k - 1).
Proof.
  intros Hk. unfold range.
  replace n with (Z.of_nat k + (n - Z.of_nat k)) at 1 by lia.
  rewrite seqZ_app by lia. f_equal.
  rewrite seqZ_cons by lia. f_equal.
Qed.

(** the state in which the iteration of ordinal [k] starts is the one the
    loop over the ordinals before [k] leaves *)
Lemma generate_questions_at (req : GenerateRequest.t) (r r' : Rng)
    (qs : list Question.t) (k : nat) (q : Question.t) :
  generate_questions req r = (inr qs, r') →
  qs !! k = Some q →
  ∃ rk rk',
    for_each (range (Z.of_nat k)) (generate_questions_body req) [] r
      = (inr (take k qs), rk) ∧
    iteration req (Z.of_nat k) rk q rk'.
Proof.
  intros Hrun Hq.
  destruct (generate_questions_run req r) as (qs0 & r0 & Hrun0 & Hall).
  rewrite Hrun in Hrun0. injection Hrun0 as <- <-.
  pose proof (Forall2_length _ _ _ Hall) as Hlen. rewrite range_length in Hlen.
  pose proof (lookup_lt_Some _ _ _ Hq) as Hlt.
  unfold generate_questions in Hrun.
  rewrite (range_split _ k), for_each_app in Hrun by lia.
  destruct (for_each_iterations req (range (Z.of_nat k)) [] r)
    as (qs1 & rk & Hrun1 & Hall1).
  pose proof (Forall2_length _ _ _ Hall1) as Hlen1.
  rewrite range_length, Nat2Z.id in Hlen1.
  step Hrun1 in Hrun. simpl in Hrun.
  destruct (iteration_total req (Z.of_nat k) rk) as (q' & rk' & Hit).
  step (generate_questions_body_iteration req _ qs1 rk q' rk' Hit) in Hrun.
  destruct (for_each_iterations req
              (seqZ (Z.of_nat k + 1)
                    (GenerateRequest.num_questions req - Z.of_nat k - 1))
              (qs1 ++ [q']) rk') as (qs2 & r2 & Hrun2 & _).
  rewrite Hrun2 in Hrun. injection Hrun as <- _.
  rewrite <- app_assoc in Hq |- *. simpl in Hq |- *.
  rewrite list_lookup_middle in Hq by done. injection Hq as <-.
  exists rk, rk'. split; [|done].
  by rewrite take_app_length' by done.
Qed.

(** on a tape that opens with the draws of one item, a mixed iteration
    resolves to the kind the first draw names and leaves the rest *)
Lemma mixed_iteration_on_tape (req : GenerateRequest.t) (i : Z)
    (kind : string) (rest : Rng) :
  GenerateRequest.question_type req = "mixed" →
  ∃ q,
    iteration req i (tape_for [kind] ++ rest) q rest ∧
    Question.type q = (if String.eqb kind "short" then "short" else "mcq").
Proof.
  intros Hmixed. unfold iteration, tape_for. rewrite Hmixed. simpl.
  destruct (String.eqb kind "short"); simpl.
  - destruct (generate_short_run (GenerateRequest.topic req)
                (GenerateRequest.grade_level req) i (0%nat :: rest))
      as (b & _ & _ & Hq).
    eexists. split; [by exists "short", (0%nat :: rest)|]. done.
  - destruct (generate_mcq_run (GenerateRequest.topic req)
                (GenerateRequest.grade_level req) i
                (0 :: 0 :: 0 :: 0 :: 0 :: rest)%nat)
      as (? & ? & ? & ? & ? & _ & _ & _ & _ & _ & _ & _ & Hq).
    eexists. split; [by exists "mcq", (0 :: 0 :: 0 :: 0 :: 0 :: rest)%nat|].
    done.
Qed.

Lemma tape_for_cons (kind : string) (kinds : list string) :
  tape_for (kind :: kinds) = tape_for [kind] ++ tape_for kinds.
Proof. unfold tape_for. simpl. by rewrite app_nil_r. Qed.

Lemma mixed_run_on_tape (req : GenerateRequest.t) (kinds : list string) :
  GenerateRequest.question_type req = "mixed" →
  Forall (λ kind, kind ∈ ["mcq"; "short"]) kinds →
  ∀ xs qs0 rest,
    length xs = length kinds →
    ∃ qs,
      for_each xs (generate_questions_body req) qs0 (tape_for kinds ++ rest)
        = (inr (qs0 ++ qs), rest) ∧
      Question.type <$> qs = kinds.
Proof.
  intros Hmixed. induction 1 as [|kind kinds Hkind _ IH];
    intros [|i xs] qs0 rest Hlen; simplify_eq/=.
  - exists []. by rewrite app_nil_r.
  - rewrite tape_for_cons, <- app_assoc.
    destruct (mixed_iteration_on_tape req i kind (tape_for kinds ++ rest) Hmixed)
      as (q & Hit & Hty).
    step (generate_questions_body_iteration req i qs0 _ q _ Hit).
    destruct (IH xs (qs0 ++ [q]) rest) as (qs & Hrun & Htys); [done|].
    exists (q :: qs). rewrite Hrun, <- app_assoc. split; [done|].
    simpl. f_equal; [|done]. rewrite Hty.
    apply elem_of_cons in Hkind as [->|Hkind]; [done|].
    apply elem_of_cons in Hkind as [->|Hkind]; [done|].
    by apply elem_of_nil in Hkind.
Qed.

(** C7. The batch has one item per ordinal, [n] of them.  With question
    type "mixed", the kind of each of the [n] items is the value of a draw
    between "mcq" and "short" taken from the random source in the state in
    which that item's own iteration starts, one draw per item; the draws do
    not constrain one another: every assignment of the two kinds to the [n]
    items is the outcome of some answers of the source, so the kind is
    neither chosen once for the batch nor split in fixed numbers.  With
    question type "mcq" or "short", every one of the [n] items has that
    kind.  (That each draw is uniform is the random source's property:
    [randbelow(2)] names "mcq" by 0 and "short" by 1.) *)
Theorem generate_questions_kinds (req : GenerateRequest.t) (r : Rng) :
  ∃ qs r',
    generate_questions req r = (inr qs, r') ∧
    length qs = Z.to_nat (GenerateRequest.num_questions req) ∧
    (GenerateRequest.question_type req ∈ ["mcq"; "short"] →
     Forall (λ q, Question.type q = GenerateRequest.question_type req) qs) ∧
    (GenerateRequest.question_type req = "mixed" →
     (∀ k : nat,
        (k < Z.to_nat (GenerateRequest.num_questions req))%nat →
        ∃ q rk d rk',
          qs !! k = Some q ∧
          for_each (range (Z.of_nat k)) (generate_questions_body req) [] r
            = (inr (take k qs), rk) ∧
          randbelow 2 rk = (inr d, rk') ∧
          ["mcq"; "short"] !! d = Some (Question.type q)) ∧
     (∀ kinds : list string,
        Forall (λ kind, kind ∈ ["mcq"; "short"]) kinds →
        length kinds = Z.to_nat (GenerateRequest.num_questions req) →
        ∃ qs2 r2,
          generate_questions req (tape_for kinds) = (inr qs2, r2) ∧
          Question.type <$> qs2 = kinds)).
Proof.
  destruct (generate_questions_run req r) as (qs & r' & Hrun & Hall).
  pose proof (Forall2_length _ _ _ Hall) as Hlen. rewrite range_length in Hlen.
  exists qs, r'. split; [done|]. split; [done|].
  split; [|intros Hmixed; split].
  - intros Hqt. apply (Forall2_Forall_r _ _ _ _ Hall).
    apply Forall_forall. intros i _ q (r0 & r1 & Hit).
    apply iteration_type in Hit as (kind & ? & Hkind & ->).
    repeat (apply elem_of_cons in Hqt as [Hqt|Hqt];
            [by rewrite Hqt in *; destruct Hkind as [-> _]|]).
    by apply elem_of_nil in Hqt.
  - intros k Hk.
    destruct (lookup_lt_is_Some_2 qs k) as [q Hq]; [lia|].
    destruct (generate_questions_at req r r' qs k q Hrun Hq)
      as (rk & rk' & Hpre & Hit).
    apply iteration_type in Hit as (kind & r0 & Hkind & Hty).
    rewrite Hmixed in Hkind. simpl in Hkind. destruct Hkind as [Hch Hin].
    unfold choice in Hch.
    destruct (randbelow_spec 2 rk) as (d & Hd & Hlt); [lia|].
    step Hd in Hch.
    exists q, rk, d, (drop 1 rk). repeat (split; [done|]).
    destruct (["mcq"; "short"] !! d) as [kind'|] eqn:Hlook; [|done].
    injection Hch as <- _. rewrite Hty.
    apply elem_of_cons in Hin as [->|Hin]; [done|].
    apply elem_of_cons in Hin as [->|Hin]; [done|].
    by apply elem_of_nil in Hin.
  - intros kinds Hkinds Hkn.
    destruct (mixed_run_on_tape req kinds Hmixed Hkinds
                (range (GenerateRequest.num_questions req)) [] [])
      as (qs2 & Hrun2 & Htys).
    { by rewrite range_length. }
    rewrite app_nil_r in Hrun2. by exists qs2, [].
Qed.

Lemma generate_questions_kinds_witness :
  ∃ qs r',
    generate_questions mixed_req [1; 4; 0; 2; 1; 3; 2; 1]%nat = (inr qs, r') ∧
    length qs = 3%nat ∧
    (∀ k : nat,
       (k < 3)%nat →
       ∃ q rk d rk',
         qs !! k = Some q ∧
         for_each (range (Z.of_nat k)) (generate_questions_body mixed_req) []
                  [1; 4; 0; 2; 1; 3; 2; 1]%nat
           = (inr (take k qs), rk) ∧
         randbelow 2 rk = (inr d, rk') ∧
         ["mcq"; "short"] !! d = Some (Question.type q)) ∧
    (∀ kinds : list string,
       Forall (λ kind, kind ∈ ["mcq"; "short"]) kinds →
       length kinds = 3%nat →
       ∃ qs2 r2,
         generate_questions mixed_req (tape_for kinds) = (inr qs2, r2) ∧
         Question.type <$> qs2 = kinds).
Proof.
  destruct (generate_questions_kinds mixed_req [1; 4; 0; 2; 1; 3; 2; 1]%nat)
    as (qs & r' & Hrun & Hlen & _ & Hmixed).
  exists qs, r'. split; [exact Hrun|]. split; [exact Hlen|].
  apply Hmixed. reflexivity.
Defined.

(** a mixed batch of three whose kinds are short, mcq, short: neither one
    kind for the batch nor a fixed share *)
Example generate_questions_mixed_kinds :
  ∃ qs r',
    generate_questions mixed_req (tape_for ["short"; "mcq"; "short"])
      = (inr qs, r') ∧
    Question.type <$> qs = ["short"; "mcq"; "short"].
Proof. eexists _, _. vm_compute. done. Qed.

Example generate_questions_mixed_all_mcq :
  ∃ qs r',
    generate_questions mixed_req (tape_for ["mcq"; "mcq"; "mcq"])
      = (inr qs, r') ∧
    Question.type <$> qs = ["mcq"; "mcq"; "mcq"].
Proof. eexists _, _. vm_compute. done. Qed.

(** * More of [main.py] and [schemas.py] *)

(** ** Serialising a document *)

Section serialize_doc_facts.

Context {datetime object : Type}.
Context (isoformat : datetime → string)
        (py_str : @Value datetime object → string).

Lemma get_not_None_spec (doc : gmap string (@Value datetime object)) (k : string)
    (v : @Value datetime object) :
  get_not_None doc k = Some v ↔ doc !! k = Some v ∧ v ≠ VNone.
Proof.
  unfold get_not_None.
  destruct (doc !! k) as [[]|]; split; try done;
    solve [ by intros [= <-] | by intros [[= <-] ?] ].
Qed.

Lemma serialize_doc_key_lookup (doc : gmap string (@Value datetime object)) (k0 k : string) :
  serialize_doc_key isoformat doc k0 !! k =
  if decide (k = k0) then isoformat_value isoformat <$> doc !! k
  else doc !! k.
Proof.
  unfold serialize_doc_key. case_decide as Hk.
  - subst k0. destruct (doc !! k) as [[]|] eqn:Hd; simpl;
      rewrite ?lookup_insert_eq, ?Hd; done.
  - destruct (doc !! k0) as [[]|]; try done. by rewrite lookup_insert_ne.
Qed.

(** the serialised document, key by key *)
Lemma serialize_doc_lookup (doc : gmap string (@Value datetime object)) (k : string) :
  serialize_doc isoformat py_str doc !! k =
  if decide (k = "_id") then
    match get_not_None doc "_id" with
    | Some _ => None
    | None => doc !! "_id"
    end
  else if decide (k = "id") then
    match get_not_None doc "_id" with
    | Some v => Some (VStr (py_str v))
    | None => doc !! "id"
    end
  else if decide (k = "created_at") then
    isoformat_value isoformat <$> doc !! k
  else if decide (k = "updated_at") then
    isoformat_value isoformat <$> doc !! k
  else doc !! k.
Proof.
  unfold serialize_doc. destruct (map_to_list doc) as [|kv kvs] eqn:Hlist.
  - apply map_to_list_empty_iff in Hlist as ->.
    unfold get_not_None. rewrite !lookup_empty.
    by repeat case_decide.
  - simpl. rewrite !serialize_doc_key_lookup.
    destruct (get_not_None doc "_id") as [v|] eqn:Hid;
      repeat case_decide; simplify_eq;
      rewrite ?lookup_insert_eq, ?lookup_insert_ne, ?lookup_delete_eq,
              ?lookup_delete_ne by done;
      done.
Qed.

Lemma isoformat_value_idemp (v : @Value datetime object) :
  isoformat_value isoformat (isoformat_value isoformat v)
    = isoformat_value isoformat v.
Proof. by destruct v. Qed.

Lemma serialize_doc_no_id (doc : gmap string (@Value datetime object)) :
  get_not_None (serialize_doc isoformat py_str doc) "_id" = None.
Proof.
  unfold get_not_None at 1. rewrite serialize_doc_lookup. simpl.
  destruct (get_not_None doc "_id") as [v|] eqn:Hid; [done|].
  unfold get_not_None in Hid. by destruct (doc !! "_id") as [[]|].
Qed.

(** X1. [serialize_doc] moves the id: when the document holds under "_id" a
    value other than [None], the result has no "_id" and holds under "id"
    the text of that value, whatever "id" held before; otherwise "_id" and
    "id" are left as they are.  In no case does the result still hold a
    value other than [None] under "_id". *)
Theorem serialize_doc_id (doc : gmap string (@Value datetime object)) :
  (∀ v, doc !! "_id" = Some v → v ≠ VNone →
     serialize_doc isoformat py_str doc !! "_id" = None ∧
     serialize_doc isoformat py_str doc !! "id" = Some (VStr (py_str v))) ∧
  (doc !! "_id" = None ∨ doc !! "_id" = Some VNone →
     serialize_doc isoformat py_str doc !! "_id" = doc !! "_id" ∧
     serialize_doc isoformat py_str doc !! "id" = doc !! "id") ∧
  get_not_None (serialize_doc isoformat py_str doc) "_id" = None.
Proof.
  split; [|split].
  - intros v Hv Hne. rewrite !serialize_doc_lookup. simpl.
    by rewrite (proj2 (get_not_None_spec doc "_id" v) (conj Hv Hne)).
  - intros Hid. rewrite !serialize_doc_lookup. simpl.
    unfold get_not_None. by destruct Hid as [-> | ->].
  - apply serialize_doc_no_id.
Qed.

(** X2. [serialize_doc] turns the value under "created_at" and under
    "updated_at" into its [isoformat()] text when it has that method and
    keeps it otherwise, so that no such value is left under these keys; the
    value under every key other than "_id", "id" and these two is kept. *)
Theorem serialize_doc_timestamps (doc : gmap string (@Value datetime object)) :
  (∀ k, k ∈ ["created_at"; "updated_at"] →
     serialize_doc isoformat py_str doc !! k
       = isoformat_value isoformat <$> doc !! k ∧
     ∀ d, serialize_doc isoformat py_str doc !! k ≠ Some (VDatetime d)) ∧
  (∀ k, k ∉ ["_id"; "id"; "created_at"; "updated_at"] →
     serialize_doc isoformat py_str doc !! k = doc !! k).
Proof.
  split.
  - intros k Hk.
    assert (serialize_doc isoformat py_str doc !! k
            = isoformat_value isoformat <$> doc !! k) as Heq.
    { rewrite serialize_doc_lookup.
      repeat (apply elem_of_cons in Hk as [->|Hk]; [done|]).
      by apply elem_of_nil in Hk. }
    split; [done|]. intros d. rewrite Heq.
    by destruct (doc !! k) as [[]|].
  - intros k Hk. rewrite serialize_doc_lookup.
    repeat case_decide; subst; try done; destruct Hk;
      repeat ((by left) || right).
Qed.

(** X3. Serialising a serialised document changes nothing. *)
Theorem serialize_doc_idempotent (doc : gmap string (@Value datetime object)) :
  serialize_doc isoformat py_str (serialize_doc isoformat py_str doc)
    = serialize_doc isoformat py_str doc.
Proof.
  apply map_eq. intros k.
  rewrite (serialize_doc_lookup (serialize_doc isoformat py_str doc)).
  rewrite serialize_doc_no_id.
  repeat case_decide; subst; try done.
  - rewrite serialize_doc_lookup. simpl. rewrite <- option_fmap_compose.
    apply option_fmap_ext. intros v. apply isoformat_value_idemp.
  - rewrite serialize_doc_lookup. simpl. rewrite <- option_fmap_compose.
    apply option_fmap_ext. intros v. apply isoformat_value_idemp.
Qed.

End serialize_doc_facts.

(** ** The persistence routes *)

#[local] Set Warnings "-clear-no-such-hyp".

Section routes_facts.

Context {datetime object Db : Type}.
Context (isoformat : datetime → string)
        (py_str : @Value datetime object → string)
        (find_one : Db → string → gmap string (@Value datetime object)
                    → string + option (gmap string (@Value datetime object)))
        (create_document : string → TestModel.t → string + string)
        (get_documents : string → Z
                         → string + list (gmap string (@Value datetime object)))
        (ObjectId_is_valid : string → bool)
        (ObjectId : string → object).

(** X4. [get_test] answers with a document exactly when a database is
    configured, the id is valid and the lookup in the collection "test" by
    that id finds a document that is not empty; the answer is that document
    serialised, so it no longer holds an id under "_id". *)
Theorem get_test_found (db : option Db) (test_id : string)
    (payload : gmap string (@Value datetime object)) :
  (get_test isoformat py_str find_one ObjectId_is_valid ObjectId db test_id
     = inr payload ↔
   ∃ h doc,
     db = Some h ∧
     ObjectId_is_valid test_id = true ∧
     find_one h "test" {[ "_id" := VObject (ObjectId test_id) ]}
       = inr (Some doc) ∧
     doc ≠ ∅ ∧
     payload = serialize_doc isoformat py_str doc) ∧
  (get_test isoformat py_str find_one ObjectId_is_valid ObjectId db test_id
     = inr payload →
   get_not_None payload "_id" = None).
Proof.
  assert (get_test isoformat py_str find_one ObjectId_is_valid ObjectId
            db test_id = inr payload ↔
          ∃ h doc,
            db = Some h ∧
            ObjectId_is_valid test_id = true ∧
            find_one h "test" {[ "_id" := VObject (ObjectId test_id) ]}
              = inr (Some doc) ∧
            doc ≠ ∅ ∧
            payload = serialize_doc isoformat py_str doc) as Hiff.
  { unfold get_test. split.
    - destruct db as [h|]; [|done].
      destruct (ObjectId_is_valid test_id) eqn:Hvalid; [|done]. simpl.
      destruct (find_one h _ _) as [message|[doc|]] eqn:Hfind; [done| |done].
      destruct (map_to_list doc) as [|kv kvs] eqn:Hlist; [done|].
      intros [= <-]. exists h, doc. repeat (split; [done|]). split; [|done].
      intros ->. by rewrite map_to_list_empty in Hlist.
    - intros (h & doc & -> & -> & -> & Hne & ->). simpl.
      destruct (map_to_list doc) as [|kv kvs] eqn:Hlist; [|done].
      by apply map_to_list_empty_iff in Hlist. }
  split; [exact Hiff|].
  intros (h & doc & _ & _ & _ & _ & ->)%Hiff. apply serialize_doc_no_id.
Qed.

(** from the cases of a route back to its answer: all but the case at hand
    contradict what is known *)
Ltac route_back :=
  intros ?; destruct_or?;
  repeat match goal with H : ∃ _, _ |- _ => destruct H end;
  destruct_and?; destruct_or?; simplify_eq; try done; try congruence.

(** X5. How the persistence routes fail.  Each answers 500, "Database not
    configured", exactly when no database is configured.  With a database,
    [save_test] and [list_tests] fail exactly when [create_document],
    [get_documents] raise, and with that exception.  With a database,
    [get_test] answers 400 exactly when the id is not valid; with a valid
    id it fails with the exception of the lookup exactly when the lookup
    raises, and answers 404 exactly when the lookup finds nothing or an
    empty document.  So the database is looked at before the id, and the id
    before the collection. *)
Theorem persistence_errors (db : option Db) (test : TestModel.t)
    (limit : option Z) (test_id : string) (e : Raised) :
  (save_test create_document db test = inl e ↔
     (db = None ∧ e = http_exception database_not_configured) ∨
     (∃ h message, db = Some h ∧
        create_document "test" test = inl message ∧
        e = exception message)) ∧
  (list_tests isoformat py_str get_documents db limit = inl e ↔
     (db = None ∧ e = http_exception database_not_configured) ∨
     (∃ h message, db = Some h ∧
        get_documents "test" (default 25 limit) = inl message ∧
        e = exception message)) ∧
  (get_test isoformat py_str find_one ObjectId_is_valid ObjectId db test_id
     = inl e ↔
     (db = None ∧ e = http_exception database_not_configured) ∨
     (∃ h, db = Some h ∧ ObjectId_is_valid test_id = false ∧
        e = http_exception
              {| status_code := 400; detail := "Invalid id" |}) ∨
     (∃ h message, db = Some h ∧ ObjectId_is_valid test_id = true ∧
        find_one h "test" {[ "_id" := VObject (ObjectId test_id) ]}
          = inl message ∧
        e = exception message) ∨
     (∃ h, db = Some h ∧ ObjectId_is_valid test_id = true ∧
        (find_one h "test" {[ "_id" := VObject (ObjectId test_id) ]}
           = inr None ∨
         find_one h "test" {[ "_id" := VObject (ObjectId test_id) ]}
           = inr (Some ∅)) ∧
        e = http_exception
              {| status_code := 404; detail := "Not found" |})).
Proof.
  unfold save_test, list_tests, get_test. split; [|split].
  - destruct db as [h|]; [|split; [intros [= <-]; by left|route_back]].
    destruct (create_document "test" test) as [message|inserted] eqn:Hc.
    + split; [intros [= <-]; right; by exists h, message|route_back].
    + split; [done|route_back].
  - destruct db as [h|]; [|split; [intros [= <-]; by left|route_back]].
    destruct (get_documents "test" (default 25 limit)) as [message|docs]
      eqn:Hg.
    + split; [intros [= <-]; right; by exists h, message|route_back].
    + split; [done|route_back].
  - destruct db as [h|]; [|split; [intros [= <-]; by left|route_back]].
    destruct (ObjectId_is_valid test_id); simpl;
      [|split; [intros [= <-]; right; left; by exists h|route_back]].
    destruct (find_one h _ _) as [message|[doc|]] eqn:Hfind.
    + split; [|route_back].
      intros [= <-]. right; right; left. by exists h, message.
    + destruct (map_to_list doc) as [|kv kvs] eqn:Hlist.
      * apply map_to_list_empty_iff in Hlist as ->.
        split; [|route_back].
        intros [= <-]. right; right; right. exists h. eauto.
      * assert (doc ≠ ∅) as Hne.
        { intros ->. by rewrite map_to_list_empty in Hlist. }
        split; [done|route_back].
    + split; [|route_back].
      intros [= <-]. right; right; right. exists h. eauto.
Qed.

(** X6. With a database configured, when [get_documents] returns,
    [list_tests] answers with as many documents as it returned for the
    collection "test" and the limit (25 when the query names none), in
    their order, each of them serialised: none holds an id under "_id".
    When [get_documents] raises, so does [list_tests]. *)
Theorem list_tests_serialised (h : Db) (limit : option Z) :
  match get_documents "test" (default 25 limit) with
  | inr docs =>
      ∃ payloads,
        list_tests isoformat py_str get_documents (Some h) limit
          = inr payloads ∧
        length payloads = length docs ∧
        (∀ i doc, docs !! i = Some doc →
           payloads !! i = Some (serialize_doc isoformat py_str doc)) ∧
        Forall (λ payload, get_not_None payload "_id" = None) payloads
  | inl message =>
      list_tests isoformat py_str get_documents (Some h) limit
        = inl (exception message)
  end.
Proof.
  unfold list_tests.
  destruct (get_documents "test" (default 25 limit)) as [message|docs];
    [done|].
  eexists. split; [reflexivity|]. split; [by rewrite length_fmap|]. split.
  - intros i doc Hdoc. by rewrite list_lookup_fmap, Hdoc.
  - apply Forall_fmap, Forall_forall. intros doc _. apply serialize_doc_no_id.
Qed.

End routes_facts.

(** ** The health route *)

Section test_database_facts.

Context {Db : Type}.
Context (db_name : Db → name_attr)
        (list_collection_names : Db → string + list string).

(** a slice is a beginning of the text, holds as many characters as asked
    for or all there are, and ends where a character ends *)
Lemma take_chars_spec (n : nat) (s : string) :
  String.prefix (take_chars n s) s = true ∧
  char_count (take_chars n s) = Nat.min n (char_count s) ∧
  (∀ rest, s = take_chars n s +:+ rest →
     rest = "" ∨ ∃ b rest', rest = String b rest' ∧ is_continuation b = false).
Proof.
  revert n. induction s as [|b s IH]; intros n; simpl.
  - split; [done|]. split; [lia|]. intros rest Hrest. by left.
  - destruct (is_continuation b) eqn:Hb.
    + destruct (IH n) as (Hp & Hc & Hw). simpl. rewrite Hb.
      destruct (ascii_dec b b); [|done]. repeat split; [done | done |].
      intros rest Hrest. rewrite append_cons in Hrest.
      injection Hrest as Hrest. by apply Hw.
    + destruct n as [|n].
      * split; [done|]. split; [done|]. intros rest Hrest.
        right. exists b, s. by rewrite Hrest.
      * destruct (IH n) as (Hp & Hc & Hw). simpl. rewrite Hb.
        destruct (ascii_dec b b); [|done]. repeat split; [done | lia |].
        intros rest Hrest. rewrite append_cons in Hrest.
        injection Hrest as Hrest. by apply Hw.
Qed.

Lemma getenv_truthy_spec (env : gmap string string) (k : string) :
  getenv_truthy env k = true ↔ ∃ v, env !! k = Some v ∧ v ≠ "".
Proof.
  unfold getenv_truthy. destruct (env !! k) as [v|]; [|naive_solver].
  destruct (String.eqb_spec v ""); naive_solver.
Qed.

(** X7. In the answer of [test_database] the fields [database_url] and
    [database_name] tell of the environment only: each is "✅ Set" when
    its variable ([DATABASE_URL], [DATABASE_NAME]) is set to a text that is
    not empty and "❌ Not Set" otherwise, whatever the state of the
    database; the name of the database and "✅ Configured", stored
    before, never reach the answer. *)
Theorem test_database_env (db : option Db) (env : gmap string string) :
  Status.database_url (test_database db_name list_collection_names db env)
    = Some (if getenv_truthy env "DATABASE_URL"
            then "✅ Set" else "❌ Not Set") ∧
  Status.database_name (test_database db_name list_collection_names db env)
    = Some (if getenv_truthy env "DATABASE_NAME"
            then "✅ Set" else "❌ Not Set") ∧
  (∀ k, getenv_truthy env k = true ↔ ∃ v, env !! k = Some v ∧ v ≠ "").
Proof.
  split; [|split]; [| |apply getenv_truthy_spec];
    unfold test_database;
    destruct db as [h|]; try done;
    destruct (db_name h); try done;
    by destruct (list_collection_names h).
Qed.

(** X8. When a database is configured, reading its name does not raise
    and the listing of its collections succeeds, the answer of
    [test_database] holds the first 10 names of the listing (all of them
    when there are fewer) and says "✅ Connected & Working" and
    "Connected".  In every other case it lists no collection.  So it never
    lists more than 10. *)
Theorem test_database_collections (db : option Db)
    (env : gmap string string) :
  (∀ h names,
     db = Some h →
     (∀ message, db_name h ≠ name_raises message) →
     list_collection_names h = inr names →
     Status.collections (test_database db_name list_collection_names db env)
       = take 10 names ∧
     Status.database (test_database db_name list_collection_names db env)
       = "✅ Connected & Working" ∧
     Status.connection_status
       (test_database db_name list_collection_names db env) = "Connected") ∧
  (db = None ∨
   (∃ h message, db = Some h ∧ db_name h = name_raises message) ∨
   (∃ h e, db = Some h ∧ list_collection_names h = inl e) →
   Status.collections (test_database db_name list_collection_names db env)
     = []) ∧
  (length (Status.collections
             (test_database db_name list_collection_names db env))
     ≤ 10)%nat.
Proof.
  unfold test_database. split; [|split].
  - intros h names -> Hname Hlist. rewrite Hlist.
    destruct (db_name h) eqn:Hn; [done | by destruct (Hname message) | done].
  - intros [->|[(h & message & -> & ->)|(h & e & -> & ->)]]; [done | done |].
    by destruct (db_name h).
  - destruct db as [h|]; [|simpl; lia].
    destruct (db_name h);
      destruct (list_collection_names h) as [e|names]; simpl;
      rewrite ?length_take; lia.
Qed.

(** a slice keeps whole characters: 2 of the 5 of "école" are 3 bytes *)
Example take_chars_ecole :
  take_chars 2 "école" = "éc" ∧ char_count "école" = 5%nat ∧
  String.length (take_chars 2 "école") = 3%nat.
Proof. repeat split. Qed.

(** X9. When a database is configured and reading its name does not raise
    but the listing of the collections raises, [test_database] reports the
    connection with the first 50 characters of the error text, or all of it
    when it has fewer. *)
Theorem test_database_listing_error (h : Db) (env : gmap string string)
    (e : string) :
  (∀ message, db_name h ≠ name_raises message) →
  list_collection_names h = inl e →
  ∃ shown,
    Status.database (test_database db_name list_collection_names (Some h) env)
      = "⚠️  Connected but Error: " +:+ shown ∧
    String.prefix shown e = true ∧
    char_count shown = Nat.min 50 (char_count e) ∧
    (∀ rest, e = shown +:+ rest →
       rest = "" ∨ ∃ b rest', rest = String b rest' ∧ is_continuation b = false) ∧
    Status.connection_status
      (test_database db_name list_collection_names (Some h) env)
      = "Connected" ∧
    Status.collections
      (test_database db_name list_collection_names (Some h) env) = [].
Proof.
  intros Hname Hlist. exists (take_chars 50 e).
  unfold test_database. rewrite Hlist.
  destruct (take_chars_spec 50 e) as (Hp & Hc & Hwhole).
  destruct (db_name h) eqn:Hn; [done | by destruct (Hname message) | done].
Qed.

End test_database_facts.

Lemma test_database_listing_error_witness :
  ∃ shown,
    Status.database
      (test_database (λ _ : unit, no_name) (λ _, inl "timed out") (Some tt) ∅)
      = "⚠️  Connected but Error: " +:+ shown ∧
    String.prefix shown "timed out" = true ∧
    char_count shown = Nat.min 50 (char_count "timed out") ∧
    (∀ rest, "timed out" = shown +:+ rest →
       rest = "" ∨ ∃ b rest', rest = String b rest' ∧ is_continuation b = false) ∧
    Status.connection_status
      (test_database (λ _ : unit, no_name) (λ _, inl "timed out") (Some tt) ∅)
      = "Connected" ∧
    Status.collections
      (test_database (λ _ : unit, no_name) (λ _, inl "timed out") (Some tt) ∅)
      = [].
Proof.
  apply (test_database_listing_error
           (λ _ : unit, no_name) (λ _, inl "timed out") tt ∅ "timed out");
    [discriminate | reflexivity].
Defined.

(** ** More on the generator *)

Lemma iteration_points (req : GenerateRequest.t) (i : Z) (r r' : Rng)
    (q : Question.t) :
  iteration req i r q r' →
  (Question.type q = "short" ∧ Question.points q = 2) ∨
  (Question.type q = "mcq" ∧ Question.points q = 1).
Proof.
  intros Hit. destruct (iteration_inv _ _ _ _ _ Hit) as (kind & r0 & _ & Hq).
  destruct Hq as [[_ Hq]|[_ Hq]].
  - apply generate_short_inv in Hq as (? & _ & ->). by left.
  - apply generate_mcq_inv in Hq
      as (? & ? & ? & ? & ? & _ & _ & _ & _ & _ & ->). by right.
Qed.

Lemma filter_all {A} (P : A → Prop) `{!∀ x, Decision (P x)} (l : list A) :
  Forall P l → filter P l = l.
Proof.
  induction 1 as [|x l Hx _ IH]; [done|].
  by rewrite filter_cons, decide_True, IH.
Qed.

Lemma filter_none {A} (P : A → Prop) `{!∀ x, Decision (P x)} (l : list A) :
  Forall (λ x, ¬ P x) l → filter P l = [].
Proof.
  induction 1 as [|x l Hx _ IH]; [done|].
  by rewrite filter_cons, decide_False, IH.
Qed.

(** X10. A batch is worth one point per question and one more per short
    question: between [n] and [2n] points for [n] questions, [2n] when the
    question type is "short" and [n] when it is neither "short" nor
    "mixed". *)
Theorem generate_questions_points (req : GenerateRequest.t) (r : Rng) :
  ∃ qs r',
    generate_questions req r = (inr qs, r') ∧
    total_points qs
      = Z.of_nat (length qs)
        + Z.of_nat (length (filter (λ q, Question.type q = "short") qs)) ∧
    Z.of_nat (length qs) ≤ total_points qs ≤ 2 * Z.of_nat (length qs) ∧
    (GenerateRequest.question_type req = "short" →
     total_points qs = 2 * Z.of_nat (length qs)) ∧
    (GenerateRequest.question_type req ≠ "short" →
     GenerateRequest.question_type req ≠ "mixed" →
     total_points qs = Z.of_nat (length qs)).
Proof.
  destruct (generate_questions_run req r) as (qs & r' & Hrun & Hall).
  exists qs, r'. split; [done|].
  assert (Forall (λ q, (Question.type q = "short" ∧ Question.points q = 2) ∨
                       (Question.type q = "mcq" ∧ Question.points q = 1)) qs)
    as Hpts.
  { apply (Forall2_Forall_r _ _ _ _ Hall), Forall_forall.
    intros i _ q (r0 & r1 & Hit). by apply iteration_points in Hit. }
  assert (Forall (λ q, ∃ kind,
                    (if String.eqb (GenerateRequest.question_type req) "mixed"
                     then kind ∈ ["mcq"; "short"]
                     else kind = GenerateRequest.question_type req) ∧
                    Question.type q
                      = if String.eqb kind "short" then "short" else "mcq") qs)
    as Htys.
  { apply (Forall2_Forall_r _ _ _ _ Hall), Forall_forall.
    intros i _ q (r0 & r1 & Hit).
    apply iteration_type in Hit as (kind & ? & Hkind & Hty). exists kind.
    split; [|done]. destruct (String.eqb _ "mixed"); naive_solver. }
  assert (total_points qs
          = Z.of_nat (length qs)
            + Z.of_nat (length (filter (λ q, Question.type q = "short") qs)))
    as Htotal.
  { clear Hrun Hall Htys. induction Hpts as [|q qs Hq _ IH]; [done|].
    simpl. rewrite filter_cons, IH.
    destruct Hq as [[Hty ->]|[Hty ->]]; rewrite Hty.
    - rewrite decide_True by done. simpl length. lia.
    - rewrite decide_False by done. lia. }
  split; [exact Htotal|].
  pose proof (length_filter (λ q, Question.type q = "short") qs) as Hle.
  split; [lia|]. split.
  - intros Hshort. rewrite Htotal.
    rewrite filter_all; [lia|].
    eapply Forall_impl; [exact Htys|]. intros q (kind & Hkind & ->).
    rewrite Hshort in Hkind. simpl in Hkind. by rewrite Hkind.
  - intros Hns Hnm. rewrite Htotal.
    rewrite filter_none; [simpl; lia|].
    eapply Forall_impl; [exact Htys|]. intros q (kind & Hkind & ->).
    destruct (String.eqb_spec (GenerateRequest.question_type req) "mixed");
      [done|].
    rewrite Hkind.
    by destruct (String.eqb_spec (GenerateRequest.question_type req) "short").
Qed.

Lemma schemas_Questions_validate_ok (qs : list Question.t) :
  Forall (λ q, 0 ≤ Question.points q) qs →
  schemas_Questions_validate qs = inr qs.
Proof.
  induction 1 as [|q qs Hq _ IH]; [done|]. simpl.
  unfold schemas_Question_validate.
  destruct (Z.ltb_spec (Question.points q) 0); [lia|]. by rewrite IH.
Qed.

(** X11. Every test [generate_test] assembles, for any request, passes the
    validation of the [test] collection's schema as it is: the duration is
    at least 1 (it is at least 10) and no question has negative points. *)
Theorem generate_test_passes_schema (str_title : string → string)
    (req : GenerateRequest.t) (r : Rng) :
  ∃ t r',
    generate_test str_title req r = (inr t, r') ∧
    schemas_Test_validate t = inr t ∧
    (∃ d, TestModel.duration_minutes t = Some d ∧ 10 ≤ d) ∧
    Forall (λ q, 1 ≤ Question.points q ≤ 2) (TestModel.questions t).
Proof.
  destruct (generate_test_run str_title req r) as (qs & r' & _ & Hall & Ht).
  exists (assemble str_title req qs), r'. split; [done|].
  assert (Forall (λ q, 1 ≤ Question.points q ≤ 2) qs) as Hpts.
  { apply (Forall2_Forall_r _ _ _ _ Hall), Forall_forall.
    intros i _ q (r0 & r1 & Hit).
    apply iteration_points in Hit as [[_ ->]|[_ ->]]; lia. }
  split; [|split; [|done]].
  - unfold schemas_Test_validate. simpl.
    destruct (Z.ltb_spec (Z.max 10 (GenerateRequest.num_questions req * 2)) 1);
      [lia|].
    rewrite schemas_Questions_validate_ok; [done|].
    eapply Forall_impl; [exact Hpts|]. simpl. lia.
  - eexists. split; [reflexivity|]. lia.
Qed.

(** X12. A body that holds a topic and nothing else is answered with a test
    of 5 questions, all of them mcq, of 10 minutes, with no grade level and
    the topic as subject: the defaults of the request model. *)
Theorem post_tests_generate_defaults (str_title : string → string)
    (topic : string) (r : Rng) :
  ∃ t r',
    post_tests_generate str_title (Body.mk (Some topic) None None None) r
      = (ok t, r') ∧
    length (TestModel.questions t) = 5%nat ∧
    Forall (λ q, Question.type q = "mcq") (TestModel.questions t) ∧
    TestModel.duration_minutes t = Some 10 ∧
    TestModel.grade_level t = None ∧
    TestModel.subject t = Some topic.
Proof.
  unfold post_tests_generate. simpl.
  destruct (generate_test_run str_title
              (GenerateRequest.mk topic None 5 "mcq") r)
    as (qs & r' & _ & Hall & ->).
  exists (assemble str_title (GenerateRequest.mk topic None 5 "mcq") qs), r'.
  split; [done|]. simpl.
  split; [by rewrite <- (Forall2_length _ _ _ Hall)|].
  split; [|done].
  apply (Forall2_Forall_r _ _ _ _ Hall), Forall_forall.
  intros i _ q (r0 & r1 & Hit).
  by apply iteration_type in Hit as (kind & ? & [-> _] & ->).
Qed.

(** X13. Asking for fewer questions on the same state of the random source
    gives the beginning of the larger batch: for [m <= n], the batch of [m]
    is the first [m] questions of the batch of [n] (none when [m <= 0]). *)
Theorem generate_questions_prefix (topic : string) (grade : option string)
    (qtype : string) (m n : Z) (r : Rng) :
  m ≤ n →
  ∃ qs_m r_m qs_n r_n,
    generate_questions (GenerateRequest.mk topic grade m qtype) r
      = (inr qs_m, r_m) ∧
    generate_questions (GenerateRequest.mk topic grade n qtype) r
      = (inr qs_n, r_n) ∧
    qs_m = take (Z.to_nat m) qs_n.
Proof.
  intros Hmn. destruct (Z.le_gt_cases n 0) as [Hn|Hn].
  { exists [], r, [], r. unfold generate_questions, range. simpl.
    rewrite !seqZ_nil by lia. by rewrite take_nil. }
  destruct (for_each_iterations (GenerateRequest.mk topic grade n qtype)
              (range m) [] r) as (qs1 & r1 & Hrun1 & Hall1).
  destruct (for_each_iterations (GenerateRequest.mk topic grade n qtype)
              (seqZ (0 + Z.max 0 m) (n - Z.max 0 m)) qs1 r1)
    as (qs2 & r2 & Hrun2 & _).
  pose proof (Forall2_length _ _ _ Hall1) as Hlen. rewrite range_length in Hlen.
  exists qs1, r1, (qs1 ++ qs2), r2. split; [exact Hrun1|]. split.
  - unfold generate_questions. simpl. unfold range.
    replace n with (Z.max 0 m + (n - Z.max 0 m)) at 1 by lia.
    rewrite seqZ_app, for_each_app by lia.
    replace (seqZ 0 (Z.max 0 m)) with (range m).
    + by step Hrun1.
    + unfold range. destruct (Z.le_gt_cases m 0).
      * by rewrite !seqZ_nil by lia.
      * f_equal. lia.
  - by rewrite take_app_length' by done.
Qed.

Lemma generate_questions_prefix_witness :
  ∃ qs_m r_m qs_n r_n,
    generate_questions (GenerateRequest.mk "cells" None 1 "mixed")
                       [1; 3; 0; 2; 1]%nat = (inr qs_m, r_m) ∧
    generate_questions (GenerateRequest.mk "cells" None 2 "mixed")
                       [1; 3; 0; 2; 1]%nat = (inr qs_n, r_n) ∧
    qs_m = take (Z.to_nat 1) qs_n.
Proof.
  apply (generate_questions_prefix "cells" None "mixed" 1 2
           [1; 3; 0; 2; 1]%nat).
  lia.
Defined.

(** *** The ordinal markers tell the questions apart *)

Lemma prefix_split (p s : string) :
  String.prefix p s = true → ∃ rest, s = p +:+ rest.
Proof.
  revert s. induction p as [|c p IH]; intros s Hp; [by exists s|].
  destruct s as [|c' s]; [done|]. simpl in Hp.
  destruct (ascii_dec c c') as [->|]; [|done].
  destruct (IH s Hp) as (rest & ->). by exists rest.
Qed.

(** a number printed in decimal ends where the first "." stands *)
Lemma string_of_uint_dot_inj (d d' : Decimal.uint) (x y : string) :
  NilEmpty.string_of_uint d +:+ String "." x
    = NilEmpty.string_of_uint d' +:+ String "." y →
  d = d'.
Proof.
  revert d'. induction d as [|d IH|d IH|d IH|d IH|d IH|d IH|d IH|d IH|d IH|d IH];
    intros [|d'|d'|d'|d'|d'|d'|d'|d'|d'|d']; simpl;
    rewrite ?append_cons; intros Heq; try discriminate; try done;
    injection Heq as Heq; f_equal; by apply IH.
Qed.

Lemma str_of_int_pos (p : positive) :
  str_of_int (Z.pos p) = NilEmpty.string_of_uint (Pos.to_uint p).
Proof.
  unfold str_of_int. simpl. unfold NilZero.string_of_uint.
  pose proof (DecimalPos.Unsigned.to_uint_nonnil p).
  by destruct (Pos.to_uint p).
Qed.

Lemma marker_inj (i j : nat) (x y : string) :
  "Q" +:+ str_of_int (Z.of_nat i + 1) +:+ "." +:+ x
    = "Q" +:+ str_of_int (Z.of_nat j + 1) +:+ "." +:+ y →
  i = j.
Proof.
  replace (Z.of_nat i + 1) with (Z.pos (Pos.of_succ_nat i)) by lia.
  replace (Z.of_nat j + 1) with (Z.pos (Pos.of_succ_nat j)) by lia.
  rewrite !str_of_int_pos, !append_cons. intros [= Heq].
  apply string_of_uint_dot_inj, DecimalPos.Unsigned.to_uint_inj in Heq. lia.
Qed.

(** X14. No two questions of a batch have the same text: the marker
    "Q{i+1}." each text starts with names its own place. *)
Theorem generate_questions_texts_differ (req : GenerateRequest.t) (r : Rng) :
  ∃ qs r',
    generate_questions req r = (inr qs, r') ∧
    NoDup (Question.text <$> qs).
Proof.
  destruct (generate_questions_run req r) as (qs & r' & Hrun & Hall).
  exists qs, r'. split; [done|].
  apply NoDup_alt. intros i j text Hi Hj.
  rewrite list_lookup_fmap in Hi, Hj.
  destruct (qs !! i) as [qi|] eqn:Hqi; [|done].
  destruct (qs !! j) as [qj|] eqn:Hqj; [|done].
  simpl in Hi, Hj.
  destruct (Forall2_lookup_r _ _ _ _ _ Hall Hqi) as (xi & Hxi & ? & ? & Hiti).
  destruct (Forall2_lookup_r _ _ _ _ _ Hall Hqj) as (xj & Hxj & ? & ? & Hitj).
  apply range_lookup in Hxi as ->. apply range_lookup in Hxj as ->.
  apply iteration_marker, prefix_split in Hiti as (resti & Hti).
  apply iteration_marker, prefix_split in Hitj as (restj & Htj).
  apply (marker_inj i j resti restj).
  rewrite <- !append_assoc in Hti, Htj |- *.
  rewrite <- !append_assoc. simpl in *. congruence.
Qed.

(** *** The verb at the recall levels *)

Lemma bind_ret {A B} (a : A) (k : A → Py B) (r : Rng) :
  bind (ret a) k r = k a r.
Proof. reflexivity. Qed.

Lemma choice_recall_level (d0 : nat) :
  (d0 mod 6 < 2)%nat →
  (∀ tape, choice BLOOM_LEVELS (d0 :: tape) = (inr "Remember", tape)) ∨
  (∀ tape, choice BLOOM_LEVELS (d0 :: tape) = (inr "Understand", tape)).
Proof.
  intros Hd. unfold choice, bind, randbelow, BLOOM_LEVELS.
  change (length _) with 6%nat.
  destruct (d0 mod 6)%nat as [|[|k]]; [by left | by right | lia].
Qed.

(** X15. When the level drawn is Remember or Understand, the verb drawn
    next leaves no trace: two runs of [generate_mcq] that differ in the
    draw of the verb only return the same question and leave the random
    source in the same state. *)
Theorem generate_mcq_recall_ignores_verb (topic : string)
    (grade : option string) (idx : Z) (d0 d1 d1' : nat) (rest : Rng) :
  (d0 mod 6 < 2)%nat →
  generate_mcq topic grade idx (d0 :: d1 :: rest)
    = generate_mcq topic grade idx (d0 :: d1' :: rest).
Proof.
  intros Hd.
  assert (verbs !! "Remember"
          = Some ["define"; "list"; "identify"; "recall"]) as Hremember
    by (vm_compute; reflexivity).
  assert (verbs !! "Understand"
          = Some ["explain"; "describe"; "summarize"; "classify"])
    as Hunderstand by (vm_compute; reflexivity).
  unfold generate_mcq.
  destruct (choice_recall_level d0 Hd) as [Hlevel|Hlevel].
  - step (Hlevel (d1 :: rest)). step (Hlevel (d1' :: rest)). unfold getitem. rewrite Hremember.
    destruct (choice_spec ["define"; "list"; "identify"; "recall"]
                (d1 :: rest)) as (v & Hv & _); [done|].
    destruct (choice_spec ["define"; "list"; "identify"; "recall"]
                (d1' :: rest)) as (v' & Hv' & _); [done|].
    rewrite !bind_ret. step Hv. step Hv'. reflexivity.
  - step (Hlevel (d1 :: rest)). step (Hlevel (d1' :: rest)). unfold getitem.
    rewrite Hunderstand.
    destruct (choice_spec ["explain"; "describe"; "summarize"; "classify"]
                (d1 :: rest)) as (v & Hv & _); [done|].
    destruct (choice_spec ["explain"; "describe"; "summarize"; "classify"]
                (d1' :: rest)) as (v' & Hv' & _); [done|].
    rewrite !bind_ret. step Hv. step Hv'. reflexivity.
Qed.

Lemma generate_mcq_recall_ignores_verb_witness :
  generate_mcq "cells" None 0 [7; 0; 4; 4; 4]%nat
    = generate_mcq "cells" None 0 [7; 3; 4; 4; 4]%nat.
Proof.
  apply (generate_mcq_recall_ignores_verb "cells" None 0 7 0 3 [4; 4; 4]%nat).
  simpl. lia.
Defined.
